(** * The room subscription registry of the chat server

    A shallow embedding of [server/internal/api/api.go]: the HTTP handlers of
    the [apiHandler], written as programs over the calls they make, with a
    semantics for those calls over the handler's shared state (the
    [subscribes] map and the mutex [mu]) and the per-request response
    writer.  Calls into other packages (the store, the websocket upgrader,
    the UUID parser, the JSON decoder) are answered by an environment that
    every theorem quantifies over. *)

From stdpp Require Import gmap strings list fin_maps.
From Stdlib Require Import ZArith Ascii.

Open Scope Z_scope.

(** ** Go values *)

Definition byte := ascii.

(** [uuid.UUID] is [[16]byte]. *)
Definition UUID := list byte.

(** Go's [error] values, as far as the handlers tell them apart:
    [errors.Is(err, pgx.ErrNoRows)] looks through wrapping. *)
Inductive error :=
| pgx_ErrNoRows
| errors_New (msg : string)
| fmt_Errorf_w (msg : string) (wrapped : error).

Fixpoint errors_Is_ErrNoRows (err : error) : bool :=
  match err with
  | pgx_ErrNoRows => true
  | errors_New _ => false
  | fmt_Errorf_w _ e => errors_Is_ErrNoRows e
  end.

(** A Go [(T, error)] result. *)
Inductive result (T : Type) :=
| Ok (v : T)
| Err (e : error).
Arguments Ok {T} v.
Arguments Err {T} e.

(** Modelled from the spec: the row type [pgstore.Room] of the generated
    store package, [{id: RoomID, theme: string}]. *)
Record Room := { Room_ID : UUID; Room_Theme : string }.

Definition StatusOK : Z := 200.
Definition StatusBadRequest : Z := 400.
Definition StatusNotFound : Z := 404.
Definition StatusInternalServerError : Z := 500.

(** [*websocket.Conn]: the address of the connection object. *)
Definition Conn := positive.

(** [context.Context]: the request's own context, or a child made by
    [context.WithCancel].  A child is done when its cancel function has been
    called or when its parent is done. *)
Inductive Ctx :=
| RequestCtx (req : positive)
| WithCancelCtx (parent : Ctx) (id : positive).

(** [context.CancelFunc]: cancels the child context with this id. *)
Inductive CancelFunc := CancelOf (id : positive).

Global Instance CancelFunc_eq_dec : EqDecision CancelFunc.
Proof. solve_decision. Defined.

(** [*http.Request], as far as the handlers read it. *)
Record Request := {
  req_id : positive;                  (* identifies the request's context *)
  URLParams : gmap string string;     (* chi's route parameters *)
  RemoteAddr : string;
  Body : string
}.

Definition chi_URLParam (r : Request) (key : string) : string :=
  default "" (URLParams r !! key).

Definition r_Context (r : Request) : Ctx := RequestCtx (req_id r).

(** A value logged under a key by [slog]. *)
Inductive logval :=
| LogString (s : string)
| LogError (e : error).

(** ** Calls *)

(** The calls a handler makes, indexed by the type of what they return. *)
Inductive op : Type → Type :=
(* other packages: answered by the environment *)
| uuid_Parse (s : string) : op (result UUID)
| q_GetRoom (ctx : Ctx) (id : UUID) : op (result Room)
| q_InsertRoom (ctx : Ctx) (theme : string) : op (result UUID)
| upgrader_Upgrade (r : Request) : op (result Conn)
| json_Decode_body (body : string) : op (result string)
(* the response writer and the logger *)
| http_Error (msg : string) (code : Z) : op unit
| w_Header_Set (key value : string) : op unit
| w_Write (data : string) : op (result nat)
| slog_Warn (msg : string) (args : list (string * logval)) : op unit
| slog_Info (msg : string) (args : list (string * logval)) : op unit
| slog_Error (msg : string) (args : list (string * logval)) : op unit
(* the connection *)
| defer_c_Close (c : Conn) : op unit
| c_Close (c : Conn) : op (option error)
(* synchronisation *)
| mu_Lock : op unit
| mu_Unlock : op unit
| context_WithCancel (parent : Ctx) : op (Ctx * CancelFunc)
| ctx_Done (ctx : Ctx) : op unit
(* the registry h.subscribes *)
| subscribes_ok (room : string) : op bool
| subscribes_make (room : string) : op unit
| subscribes_set (room : string) (c : Conn) (cancel : CancelFunc) : op unit
| subscribes_delete (room : string) (c : Conn) : op unit.

(** A handler body: a tree of calls, each continued by what is done with
    its answer. *)
Inductive prog (A : Type) : Type :=
| Ret (a : A)
| Vis {X : Type} (o : op X) (k : X → prog A).
Arguments Ret {A} a.
Arguments Vis {A X} o k.

Fixpoint prog_bind {A B} (f : A → prog B) (p : prog A) : prog B :=
  match p with
  | Ret a => f a
  | Vis o k => Vis o (λ x, prog_bind f (k x))
  end.

Global Instance prog_ret : MRet prog := λ A a, Ret a.
Global Instance prog_mbind : MBind prog := λ A B f p, prog_bind f p.

Definition call {X} (o : op X) : prog X := Vis o Ret.

Definition byte_in (lo hi : Z) (c : byte) : bool :=
  let n := Z.of_N (N_of_ascii c) in (lo <=? n) && (n <=? hi).

(** ** Library functions the handlers call *)

Definition dquote : byte := "034"%char.
Definition backslash : byte := "092"%char.

(** [encoding/hex]: two lower-case digits per byte. *)
Definition hextable : string := "0123456789abcdef".

Definition hex_at (i : N) : byte :=
  default "000"%char (String.get (N.to_nat i) hextable).

Fixpoint hex_Encode (src : list byte) : string :=
  match src with
  | [] => ""
  | v :: rest =>
      String (hex_at (N.shiftr (N_of_ascii v) 4))
        (String (hex_at (N.land (N_of_ascii v) 15)) (hex_Encode rest))
  end.

(** [UUID.String]: xxxxxxxx-xxxx-xxxx-xxxx-xxxxxxxxxxxx. *)
Definition uuid_String (u : UUID) : string :=
  hex_Encode (take 4 u) +:+ "-" +:+
  hex_Encode (take 2 (drop 4 u)) +:+ "-" +:+
  hex_Encode (take 2 (drop 6 u)) +:+ "-" +:+
  hex_Encode (take 2 (drop 8 u)) +:+ "-" +:+
  hex_Encode (drop 10 u).

(** The other direction, [uuid.Parse] of github.com/google/uuid, is not
    part of this repository: the handlers are studied under every parser
    (see [Env]).  [google_uuid_Parse] follows that library's textual forms
    and serves as the parser of the example environment. *)
Definition xvalue (c : byte) : option N :=
  let n := N_of_ascii c in
  if byte_in 48 57 c then Some (n - 48)%N
  else if byte_in 65 70 c then Some (n - 55)%N
  else if byte_in 97 102 c then Some (n - 87)%N
  else None.

Definition xtob (x1 x2 : byte) : option byte :=
  b1 ← xvalue x1; b2 ← xvalue x2;
  Some (ascii_of_N (N.lor (N.shiftl b1 4) b2)).

Definition byte_at (s : string) (i : nat) : byte :=
  default "000"%char (String.get i s).

Definition parse_pairs (s : string) (offsets : list nat) : result UUID :=
  match mapM (λ x, xtob (byte_at s x) (byte_at s (S x))) offsets with
  | Some u => Ok u
  | None => Err (errors_New "invalid UUID format")
  end.

Definition to_lower (s : string) : string :=
  String.string_of_list_ascii
    (map (λ c, if byte_in 65 90 c
               then ascii_of_N (N_of_ascii c + 32) else c)
         (String.list_ascii_of_string s)).

Definition parse_dashed (s : string) : result UUID :=
  if forallb (λ i, bool_decide (byte_at s i = "-"%char)) [8; 13; 18; 23]%nat
  then parse_pairs s [0; 2; 4; 6; 9; 11; 14; 16; 19; 21; 24; 26; 28; 30; 32; 34]%nat
  else Err (errors_New "invalid UUID format").

Definition google_uuid_Parse (s : string) : result UUID :=
  let n := String.length s in
  if bool_decide (n = 36%nat) then parse_dashed s
  else if bool_decide (n = 45%nat) then
    if bool_decide (to_lower (String.substring 0 9 s) = "urn:uuid:")
    then parse_dashed (String.substring 9 36 s)
    else Err (errors_New "invalid urn prefix")
  else if bool_decide (n = 38%nat) then parse_dashed (String.substring 1 37 s)
  else if bool_decide (n = 32%nat) then
    parse_pairs s (map (λ i, 2 * i)%nat (seq 0 16))
  else Err (errors_New "invalid UUID length").

(** [reflect.StructTag.Lookup]: a tag is a sequence of [key:"value"] pairs
    separated by spaces; scanning stops at the first piece that is not of
    that form.  Escape sequences inside a value are not interpreted here:
    a value with a backslash is not found. *)
Fixpoint skip_spaces (tag : string) : string :=
  match tag with
  | String c rest => if bool_decide (c = " "%char) then skip_spaces rest else tag
  | EmptyString => EmptyString
  end.

(** The bytes up to the first space, colon, quote or control byte, and what
    follows them. *)
Fixpoint scan_key (tag : string) : string * string :=
  match tag with
  | String c rest =>
      if (32 <? Z.of_N (N_of_ascii c)) && negb (bool_decide (c = ":"%char))
         && negb (bool_decide (c = dquote)) && negb (bool_decide (c = "127"%char))
      then let r := scan_key rest in (String c (fst r), snd r)
      else (EmptyString, tag)
  | EmptyString => (EmptyString, EmptyString)
  end.

(** After the opening quote: the bytes up to the closing quote, and what
    follows it. *)
Fixpoint scan_quoted (s : string) : option (string * string) :=
  match s with
  | EmptyString => None
  | String c rest =>
      if bool_decide (c = dquote) then Some (EmptyString, rest)
      else if bool_decide (c = backslash) then
        match rest with
        | EmptyString => None
        | String c2 rest2 =>
            r ← scan_quoted rest2; Some (String c (String c2 (fst r)), snd r)
        end
      else r ← scan_quoted rest; Some (String c (fst r), snd r)
  end.

Definition has_byte (b : byte) (s : string) : bool :=
  existsb (λ c, bool_decide (c = b)) (String.list_ascii_of_string s).

Definition Unquote (inner : string) : option string :=
  if has_byte backslash inner || has_byte "010"%char inner then None
  else Some inner.

Fixpoint StructTag_Lookup_loop (fuel : nat) (tag key : string) : option string :=
  match fuel with
  | O => None
  | S fuel =>
      let tag := skip_spaces tag in
      let r := scan_key tag in
      match fst r, snd r with
      | String _ _ as name, String c1 (String c2 rest) =>
          if bool_decide (c1 = ":"%char) && bool_decide (c2 = dquote) then
            match scan_quoted rest with
            | None => None
            | Some (inner, tag') =>
                if bool_decide (key = name) then Unquote inner
                else StructTag_Lookup_loop fuel tag' key
            end
          else None
      | _, _ => None
      end
  end.

Definition StructTag_Lookup (tag key : string) : option string :=
  StructTag_Lookup_loop (String.length tag) tag key.

(** [StructTag.Get]: the empty string when the key is not found. *)
Definition StructTag_Get (tag key : string) : string :=
  default "" (StructTag_Lookup tag key).

(** [encoding/json]'s [isValidTag], on ASCII names. *)
Definition isValidTag_byte (c : byte) : bool :=
  byte_in 48 57 c || byte_in 65 90 c || byte_in 97 122 c ||
  has_byte c "!#$%&()*+-./:;<=>?@[]^_{|}~ ".

Definition isValidTag (s : string) : bool :=
  negb (bool_decide (s = "")) &&
  forallb isValidTag_byte (String.list_ascii_of_string s).

Fixpoint before_comma (s : string) : string :=
  match s with
  | EmptyString => EmptyString
  | String c rest =>
      if bool_decide (c = ","%char) then EmptyString else String c (before_comma rest)
  end.

(** The key [encoding/json] gives a struct field: the name in its [json]
    tag if the tag has a valid one, else the field's Go name; [None] for a
    field left out by the tag [-]. *)
Definition json_field_name (goName tag : string) : option string :=
  let t := StructTag_Get tag "json" in
  if bool_decide (t = "-") then None
  else
    let name := before_comma t in
    let name := if isValidTag name then name else "" in
    Some (if bool_decide (name = "") then goName else name).

(** [encoding/json]'s [htmlSafeSet], for bytes below 0x80. *)
Definition htmlSafe (b : byte) : bool :=
  byte_in 32 127 b && negb (has_byte b (String dquote (String backslash "&<>"))).

Definition json_escape (b : byte) : string :=
  if bool_decide (b = backslash) || bool_decide (b = dquote)
  then String backslash (String b "")
  else if bool_decide (b = "008"%char) then String backslash "b"
  else if bool_decide (b = "012"%char) then String backslash "f"
  else if bool_decide (b = "010"%char) then String backslash "n"
  else if bool_decide (b = "013"%char) then String backslash "r"
  else if bool_decide (b = "009"%char) then String backslash "t"
  else String backslash
         (String "u" (String "0" (String "0"
            (String (hex_at (N.shiftr (N_of_ascii b) 4))
               (String (hex_at (N.land (N_of_ascii b) 15)) ""))))).

Fixpoint json_string_body (s : string) : string :=
  match s with
  | EmptyString => EmptyString
  | String b rest =>
      (if htmlSafe b || negb (byte_in 0 127 b) then String b "" else json_escape b)
      +:+ json_string_body rest
  end.

(** How [json.Marshal] writes a string, HTML escaping on.  Bytes from 0x80
    on are copied: the replacement of invalid UTF-8 and of U+2028 and U+2029
    is outside this model. *)
Definition json_string (s : string) : string :=
  String dquote (json_string_body s +:+ String dquote "").

(** Lines 165-167: the response type, with its tag as written. *)
Record response := { ID : string }.

Definition response_ID_tag : string :=
  "json" +:+ String dquote ("id" +:+ String dquote "").

(** [json.Marshal] of a [response]: it cannot fail. *)
Definition json_Marshal (v : response) : string * option error :=
  (match json_field_name "ID" response_ID_tag with
   | None => "{}"
   | Some name => "{" +:+ json_string name +:+ ":" +:+ json_string (ID v) +:+ "}"
   end, None).

(** ** The handlers *)

Module api.

(** Lines 120-132: registration under the lock.  Returns the session's
    context. *)
Definition register (r : Request) (rawRoomId : string) (c : Conn) : prog Ctx :=
  call mu_Lock;;
  '(ctx, cancel) ← call (context_WithCancel (r_Context r));
  ok ← call (subscribes_ok rawRoomId);
  (if negb ok then call (subscribes_make rawRoomId) else Ret ());;
  call (slog_Info "new client connected"
          [("room_id", LogString rawRoomId);
           ("client_ip", LogString (RemoteAddr r))]);;
  call (subscribes_set rawRoomId c cancel);;
  call mu_Unlock;;
  Ret ctx.

(** Lines 136-140: removal under the lock. *)
Definition unregister (rawRoomId : string) (c : Conn) : prog unit :=
  call mu_Lock;;
  call (subscribes_delete rawRoomId c);;
  call mu_Unlock.

(** Lines 83-141. *)
Definition handleSubscribe (r : Request) : prog unit :=
  let rawRoomId := chi_URLParam r "room_id" in
  parsed ← call (uuid_Parse rawRoomId);
  match parsed with
  | Err _ =>
      call (http_Error "Invalid room id" StatusBadRequest)
  | Ok roomId =>
      found ← call (q_GetRoom (r_Context r) roomId);
      match found with
      | Err err =>
          if errors_Is_ErrNoRows err then
            call (http_Error "Room not found" StatusBadRequest)
          else
            call (http_Error "Something went wrong" StatusInternalServerError)
      | Ok _ =>
          upgraded ← call (upgrader_Upgrade r);
          match upgraded with
          | Err err =>
              call (slog_Warn "Failed to upgrade connection."
                      [("error", LogError err)]);;
              call (http_Error "Failed to upgrade to WS connection" StatusBadRequest)
          | Ok c =>
              call (defer_c_Close c);;
              ctx ← register r rawRoomId c;
              call (ctx_Done ctx);;
              unregister rawRoomId c
          end
      end
  end.

(** Lines 143-174. *)
Definition handleCreateRoom (r : Request) : prog unit :=
  decoded ← call (json_Decode_body (Body r));
  match decoded with
  | Err _ =>
      call (http_Error "Invalid JSON" StatusBadRequest)
  | Ok body_Theme =>
      inserted ← call (q_InsertRoom (r_Context r) body_Theme);
      match inserted with
      | Err err =>
          call (slog_Error "Failed to insert room" [("error", LogError err)]);;
          call (http_Error "Something went wrong" StatusInternalServerError)
      | Ok roomId =>
          let '(data, _) := json_Marshal {| ID := uuid_String roomId |} in
          call (w_Header_Set "content-type" "application/json");;
          _ ← call (w_Write data);
          Ret ()
      end
  end.

(** Lines 176-188: the handlers with an empty body. *)
Definition handleGetRooms (r : Request) : prog unit := Ret ().
Definition handleMarkMessageAsAnswered (r : Request) : prog unit := Ret ().
Definition handleRemoveReactFromMessage (r : Request) : prog unit := Ret ().
Definition handleCreateRoomMessage (r : Request) : prog unit := Ret ().
Definition handleGetRoomMessage (r : Request) : prog unit := Ret ().
Definition handleGetRoomMessages (r : Request) : prog unit := Ret ().
Definition handleReactToMessage (r : Request) : prog unit := Ret ().

End api.

(** ** State *)

(** [http.ResponseWriter]: the header map, what was sent by [WriteHeader]
    (the first call wins), and the body written so far. *)
Record ResponseWriter := {
  rw_header : gmap string string;
  rw_sent : option (Z * gmap string string);
  rw_body : string
}.

Definition NewResponseWriter : ResponseWriter :=
  {| rw_header := ∅; rw_sent := None; rw_body := "" |}.

(** What belongs to one request: its response writer and the connections
    whose [Close] is deferred to the handler's return. *)
Record Local := {
  w : ResponseWriter;
  deferred : list Conn
}.

Definition NewLocal : Local := {| w := NewResponseWriter; deferred := [] |}.

(** What requests share: the [apiHandler]'s [subscribes] and [mu], and the
    process around it (contexts, connections, allocation). *)
Record World := {
  subscribes : gmap string (gmap Conn CancelFunc);
  mu : bool;                    (* is the mutex locked *)
  gone : gset positive;         (* requests whose context has ended *)
  cancelled : gset positive;    (* contexts whose cancel function was called *)
  open : gset Conn;             (* upgraded connections not yet closed *)
  next_conn : Conn;
  next_ctx : positive
}.

(** Lines 33-43: [NewHandler] makes an empty registry and an unlocked mutex. *)
Definition NewHandler : World :=
  {| subscribes := ∅; mu := false; gone := ∅; cancelled := ∅; open := ∅;
     next_conn := 1%positive; next_ctx := 1%positive |}.

Definition set_subscribes (f : gmap string (gmap Conn CancelFunc) →
                               gmap string (gmap Conn CancelFunc))
    (σ : World) : World :=
  {| subscribes := f (subscribes σ); mu := mu σ; gone := gone σ;
     cancelled := cancelled σ; open := open σ; next_conn := next_conn σ;
     next_ctx := next_ctx σ |}.

Definition set_mu (b : bool) (σ : World) : World :=
  {| subscribes := subscribes σ; mu := b; gone := gone σ;
     cancelled := cancelled σ; open := open σ; next_conn := next_conn σ;
     next_ctx := next_ctx σ |}.

Definition set_open (f : gset Conn → gset Conn) (σ : World) : World :=
  {| subscribes := subscribes σ; mu := mu σ; gone := gone σ;
     cancelled := cancelled σ; open := f (open σ); next_conn := next_conn σ;
     next_ctx := next_ctx σ |}.

Definition alloc_conn (σ : World) : World :=
  {| subscribes := subscribes σ; mu := mu σ; gone := gone σ;
     cancelled := cancelled σ; open := {[next_conn σ]} ∪ open σ;
     next_conn := Pos.succ (next_conn σ); next_ctx := next_ctx σ |}.

Definition alloc_ctx (σ : World) : World :=
  {| subscribes := subscribes σ; mu := mu σ; gone := gone σ;
     cancelled := cancelled σ; open := open σ; next_conn := next_conn σ;
     next_ctx := Pos.succ (next_ctx σ) |}.

(** Is the channel [ctx.Done()] closed. *)
Fixpoint ctx_done (σ : World) (ctx : Ctx) : bool :=
  match ctx with
  | RequestCtx req => bool_decide (req ∈ gone σ)
  | WithCancelCtx parent id =>
      bool_decide (id ∈ cancelled σ) || ctx_done σ parent
  end.

(** The two ways a session's token fires. *)
Inductive Cause :=
| ClientDisconnect (req : positive)   (* the request's context ends *)
| Eviction (cancel : CancelFunc).     (* a stored cancel function is called *)

Definition fire (cause : Cause) (σ : World) : World :=
  match cause with
  | ClientDisconnect req =>
      {| subscribes := subscribes σ; mu := mu σ; gone := {[req]} ∪ gone σ;
         cancelled := cancelled σ; open := open σ; next_conn := next_conn σ;
         next_ctx := next_ctx σ |}
  | Eviction (CancelOf id) =>
      {| subscribes := subscribes σ; mu := mu σ; gone := gone σ;
         cancelled := {[id]} ∪ cancelled σ; open := open σ;
         next_conn := next_conn σ; next_ctx := next_ctx σ |}
  end.

(** ** The response writer *)

(** [httpguts]' token bytes: the bytes of a well-formed header name. *)
Definition validHeaderFieldByte (c : byte) : bool :=
  byte_in 48 57 c || byte_in 65 90 c || byte_in 97 122 c ||
  bool_decide (c ∈ ["!"; "#"; "$"; "%"; "&"; "'"; "*"; "+"; "-"; ".";
                     "^"; "_"; "`"; "|"; "~"]%char).

Definition shift_byte (d : Z) (c : byte) : byte :=
  ascii_of_N (Z.to_N (Z.of_N (N_of_ascii c) + d)).

Fixpoint canonicalise (upper : bool) (s : string) : string :=
  match s with
  | EmptyString => EmptyString
  | String c rest =>
      let c' := if upper && byte_in 97 122 c then shift_byte (-32) c
                else if negb upper && byte_in 65 90 c then shift_byte 32 c
                else c in
      String c' (canonicalise (bool_decide (c' = "-"%char)) rest)
  end.

(** [textproto.CanonicalMIMEHeaderKey]: a name of token bytes gets an upper
    case letter first and after each dash and lower case elsewhere; any other
    string is left as it is. *)
Definition CanonicalMIMEHeaderKey (s : string) : string :=
  if forallb validHeaderFieldByte (String.list_ascii_of_string s)
  then canonicalise true s else s.

Definition Header_Set (key value : string) (rw : ResponseWriter) : ResponseWriter :=
  {| rw_header := <[CanonicalMIMEHeaderKey key := value]> (rw_header rw);
     rw_sent := rw_sent rw; rw_body := rw_body rw |}.

Definition WriteHeader (code : Z) (rw : ResponseWriter) : ResponseWriter :=
  match rw_sent rw with
  | Some _ => rw
  | None => {| rw_header := rw_header rw;
               rw_sent := Some (code, rw_header rw);
               rw_body := rw_body rw |}
  end.

(** [w.Write]: sends the header with status 200 if none was sent yet. *)
Definition Write (data : string) (rw : ResponseWriter) : ResponseWriter :=
  let rw := WriteHeader StatusOK rw in
  {| rw_header := rw_header rw; rw_sent := rw_sent rw;
     rw_body := rw_body rw +:+ data |}.

Definition newline : string := String "010"%char EmptyString.

(** [http.Error]. *)
Definition Error (msg : string) (code : Z) (rw : ResponseWriter) : ResponseWriter :=
  let rw := Header_Set "Content-Type" "text/plain; charset=utf-8" rw in
  let rw := Header_Set "X-Content-Type-Options" "nosniff" rw in
  let rw := WriteHeader code rw in
  Write (msg +:+ newline) rw.

Definition status (rw : ResponseWriter) : option Z := fst <$> rw_sent rw.

Definition sent_header (rw : ResponseWriter) (key : string) : option string :=
  rw_sent rw ≫= λ sent, snd sent !! CanonicalMIMEHeaderKey key.

Definition set_w (f : ResponseWriter → ResponseWriter) (l : Local) : Local :=
  {| w := f (w l); deferred := deferred l |}.

(** ** Semantics of the calls *)

(** What the other packages answer.  The store, the parser and the decoder
    are outside this file, so a handler is studied under every environment. *)
Record Env := {
  env_Parse : string → result UUID;          (* uuid.Parse *)
  env_GetRoom : UUID → result Room;          (* h.q.GetRoom *)
  env_InsertRoom : string → result UUID;     (* h.q.InsertRoom *)
  env_Upgrade : Request → option error;      (* None: the handshake succeeds *)
  env_Decode : string → result string;       (* the decoded Theme *)
  env_Write : string → result nat            (* what w.Write reports *)
}.

Inductive reply (X : Type) :=
| Answer (x : X) (l : Local) (σ : World)
| Wait                    (* the call blocks in this state *)
| Panic (msg : string)    (* a run-time panic: deferred calls still run *)
| Fatal (msg : string).   (* a fatal error: the process stops *)
Arguments Answer {X} x l σ.
Arguments Wait {X}.
Arguments Panic {X} msg.
Arguments Fatal {X} msg.

Definition push_deferred (c : Conn) (l : Local) : Local :=
  {| w := w l; deferred := c :: deferred l |}.

Definition interp (E : Env) {X} (o : op X) (l : Local) (σ : World) : reply X :=
  match o in op X return reply X with
  | uuid_Parse s => Answer (env_Parse E s) l σ
  | q_GetRoom _ id => Answer (env_GetRoom E id) l σ
  | q_InsertRoom _ theme => Answer (env_InsertRoom E theme) l σ
  | upgrader_Upgrade r =>
      match env_Upgrade E r with
      | Some e => Answer (Err e) l σ
      | None => Answer (Ok (next_conn σ)) l (alloc_conn σ)
      end
  | json_Decode_body body => Answer (env_Decode E body) l σ
  | http_Error msg code => Answer () (set_w (Error msg code) l) σ
  | w_Header_Set key value => Answer () (set_w (Header_Set key value) l) σ
  | w_Write data => Answer (env_Write E data) (set_w (Write data) l) σ
  | slog_Warn _ _ | slog_Info _ _ | slog_Error _ _ => Answer () l σ
  | defer_c_Close c => Answer () (push_deferred c l) σ
  | c_Close c =>
      if decide (c ∈ open σ)
      then Answer None l (set_open (λ s, s ∖ {[c]}) σ)
      else Answer (Some (errors_New "use of closed network connection")) l σ
  | mu_Lock =>
      if mu σ then Wait else Answer () l (set_mu true σ)
  | mu_Unlock =>
      if mu σ then Answer () l (set_mu false σ)
      else Fatal "sync: unlock of unlocked mutex"
  | context_WithCancel parent =>
      Answer (WithCancelCtx parent (next_ctx σ), CancelOf (next_ctx σ))
             l (alloc_ctx σ)
  | ctx_Done ctx =>
      if ctx_done σ ctx then Answer () l σ else Wait
  | subscribes_ok room =>
      Answer (bool_decide (is_Some (subscribes σ !! room))) l σ
  | subscribes_make room =>
      Answer () l (set_subscribes (<[room := ∅]>) σ)
  | subscribes_set room c cancel =>
      match subscribes σ !! room with
      | Some m =>
          Answer () l (set_subscribes (<[room := <[c := cancel]> m]>) σ)
      | None => Panic "assignment to entry in nil map"
      end
  | subscribes_delete room c =>
      Answer () l (set_subscribes (alter (delete c) room) σ)
  end.

(** A call with its answer. *)
Inductive event :=
| Event (X : Type) (o : op X) (x : X).
Arguments Event {X} o x.

(** One step of a handler: the shared state the call found, the call with
    its answer, and the shared state it left. *)
Record step := { before : World; ev : event; after : World }.

Definition trace := list step.

Inductive ending (A : Type) :=
| Returned (a : A) (l : Local) (σ : World)
| Blocked (p : prog A) (l : Local) (σ : World)   (* waiting at the head of p *)
| Panicked (msg : string) (l : Local) (σ : World)
| Crashed (msg : string).
Arguments Returned {A} a l σ.
Arguments Blocked {A} p l σ.
Arguments Panicked {A} msg l σ.
Arguments Crashed {A} msg.

(** Run a body until it returns, blocks or fails, with no other goroutine
    running in between. *)
Fixpoint exec {A} (E : Env) (p : prog A) (l : Local) (σ : World)
    : trace * ending A :=
  match p with
  | Ret a => ([], Returned a l σ)
  | Vis o k =>
      match interp E o l σ with
      | Answer x l' σ' =>
          let r := exec E (k x) l' σ' in
          ({| before := σ; ev := Event o x; after := σ' |} :: fst r, snd r)
      | Wait => ([], Blocked (Vis o k) l σ)
      | Panic msg => ([], Panicked msg l σ)
      | Fatal msg => ([], Crashed msg)
      end
  end.

(** The deferred calls of a handler, last deferred first. *)
Fixpoint deferred_calls (cs : list Conn) : prog unit :=
  match cs with
  | [] => Ret ()
  | c :: cs => call (c_Close c);; deferred_calls cs
  end.

Definition clear_deferred (l : Local) : Local :=
  {| w := w l; deferred := [] |}.

(** Run a handler: its body, then on return or panic its deferred calls. *)
Definition serve (E : Env) (p : prog unit) (l : Local) (σ : World)
    : trace * ending unit :=
  match exec E p l σ with
  | (tr, Returned _ l' σ') =>
      let r := exec E (deferred_calls (deferred l')) (clear_deferred l') σ' in
      (tr ++ fst r, snd r)
  | (tr, Panicked msg l' σ') =>
      match exec E (deferred_calls (deferred l')) (clear_deferred l') σ' with
      | (tr', Returned _ l'' σ'') => (tr ++ tr', Panicked msg l'' σ'')
      | (tr', e) => (tr ++ tr', e)
      end
  | r => r
  end.

(** Does the handler hold [mu] after a call: it does from its own [Lock]
    to its own [Unlock]. *)
Definition holds {X} (held : bool) (o : op X) : bool :=
  match o with
  | mu_Lock => true
  | mu_Unlock => false
  | _ => held
  end.

Definition step_holds (held : bool) (s : step) : bool :=
  match ev s with Event o _ => holds held o end.

Definition held_after (tr : trace) (held : bool) : bool :=
  fold_left step_holds tr held.

(** What the other goroutines may do between two calls of a handler: a
    relation, given whether the handler holds [mu], between the shared state
    the handler left and the one its next call finds. *)
Definition rely := bool → World → World → Prop.

(** No other goroutine. *)
Definition alone : rely := λ _ σ σ', σ' = σ.

(** Any change at all. *)
Definition anything : rely := λ _ _ _, True.

(** Goroutines that keep the discipline of [mu]: while the handler holds
    the lock they neither unlock it nor touch [subscribes]; all else (other
    connections, contexts, allocation) they may change at any time. *)
Definition respects_lock : rely := λ held σ σ',
  held = true → mu σ' = mu σ ∧ subscribes σ' = subscribes σ.

(** The same body among other goroutines: before each call the shared state
    moves by [R], and a call that would block is retried in a later state.
    [runs] holds of every run from the state [σ0], finished or not: one that
    has not got past the call at the head of [p] ends [Blocked] there. *)
Fixpoint runs {A} (R : rely) (E : Env) (held : bool) (σ0 : World)
    (p : prog A) (l : Local) (tr : trace) (e : ending A) : Prop :=
  match p with
  | Ret a => tr = [] ∧ e = Returned a l σ0
  | Vis o k =>
      (tr = [] ∧ e = Blocked (Vis o k) l σ0) ∨
      ∃ σ, R held σ0 σ ∧
        match interp E o l σ with
        | Answer x l' σ' =>
            ∃ tr', tr = {| before := σ; ev := Event o x; after := σ' |} :: tr'
                   ∧ runs R E (holds held o) σ' (k x) l' tr' e
        | Wait => False
        | Panic msg => tr = [] ∧ e = Panicked msg l σ
        | Fatal msg => tr = [] ∧ e = Crashed msg
        end
  end.

(** A handler among other goroutines: its body, then on return or panic
    its deferred calls. *)
Definition serves (R : rely) (E : Env) (p : prog unit) (l : Local)
    (σ0 : World) (tr : trace) (e : ending unit) : Prop :=
  ∃ tr1 e1, runs R E false σ0 p l tr1 e1 ∧
    match e1 with
    | Returned _ l' σ' =>
        ∃ tr2,
          runs R E (held_after tr1 false) σ'
            (deferred_calls (deferred l')) (clear_deferred l') tr2 e
          ∧ tr = tr1 ++ tr2
    | Panicked msg l' σ' =>
        ∃ tr2 e2,
          runs R E (held_after tr1 false) σ'
            (deferred_calls (deferred l')) (clear_deferred l') tr2 e2
          ∧ tr = tr1 ++ tr2
          ∧ e = match e2 with
                | Returned _ l'' σ'' => Panicked msg l'' σ''
                | _ => e2
                end
    | _ => tr = tr1 ∧ e = e1
    end.

(** Kinds of calls in a trace. *)
Definition is_delete (room : string) (c : Conn) (s : step) : bool :=
  match ev s with
  | Event o _ =>
      match o with
      | subscribes_delete room' c' =>
          bool_decide (room' = room) && bool_decide (c' = c)
      | _ => false
      end
  end.

Definition is_close (c : Conn) (s : step) : bool :=
  match ev s with
  | Event o _ =>
      match o with
      | c_Close c' => bool_decide (c' = c)
      | _ => false
      end
  end.

(** A successful upgrade that made connection [c]. *)
Definition is_upgraded (c : Conn) (s : step) : bool :=
  match ev s with
  | Event o x =>
      match o in op X return X → bool with
      | upgrader_Upgrade _ =>
          λ x, match x with Ok c' => bool_decide (c' = c) | Err _ => false end
      | _ => λ _, false
      end x
  end.

Definition is_Upgrade (s : step) : bool :=
  match ev s with
  | Event o _ => match o with upgrader_Upgrade _ => true | _ => false end
  end.

Definition is_GetRoom (s : step) : bool :=
  match ev s with
  | Event o _ => match o with q_GetRoom _ _ => true | _ => false end
  end.

Definition count (f : step → bool) (tr : trace) : nat :=
  List.length (List.filter f tr).

(** A successful upgrade. *)
Definition is_upgrade_ok (s : step) : bool :=
  match ev s with
  | Event o x =>
      match o in op X return X → bool with
      | upgrader_Upgrade _ =>
          λ x, match x with Ok _ => true | Err _ => false end
      | _ => λ _, false
      end x
  end.

(** Up to its first successful upgrade, every step of the trace leaves the
    registry as it found it. *)
Fixpoint quiet_until_upgrade (tr : trace) : Prop :=
  match tr with
  | [] => True
  | s :: tr' =>
      if is_upgrade_ok s then True
      else subscribes (after s) = subscribes (before s) ∧ quiet_until_upgrade tr'
  end.

(** The setup of a subscription fails: the id is malformed, the room lookup
    fails, or the upgrade fails. *)
Definition setup_fails (E : Env) (r : Request) : Prop :=
  match env_Parse E (chi_URLParam r "room_id") with
  | Err _ => True
  | Ok roomId =>
      match env_GetRoom E roomId with
      | Err _ => True
      | Ok _ => is_Some (env_Upgrade E r)
      end
  end.

(** The connection a step calls a method of, and the connections a run
    reaches: a delivery to a session is a call on its connection. *)
Definition conn_called (s : step) : option Conn :=
  match ev s with
  | Event o _ => match o with c_Close c => Some c | _ => None end
  end.

Definition reached (tr : trace) : gset Conn :=
  list_to_set (omap conn_called tr).

(** A run keeps the discipline of the lock: a step made while the handler
    does not hold [mu] leaves [subscribes] as it found it and does not
    unlock a locked [mu]. *)
Fixpoint keeps_discipline (held : bool) (tr : trace) : Prop :=
  match tr with
  | [] => True
  | s :: tr' =>
      (held = false →
         subscribes (after s) = subscribes (before s)
         ∧ (mu (before s) = true → mu (after s) = true))
      ∧ keeps_discipline (step_holds held s) tr'
  end.

(** A handler starts with a response writer that has sent nothing and with
    no deferred call. *)
Definition entry (rw : ResponseWriter) : Local := {| w := rw; deferred := [] |}.

(** The listener set of a room: what a broadcast would iterate over. *)
Definition Snapshot (σ : World) (room : string) : gset Conn :=
  dom (default ∅ (subscribes σ !! room)).

(** The registry after a registration and after a removal. *)
Definition Register (room : string) (c : Conn) (cancel : CancelFunc)
    (subs : gmap string (gmap Conn CancelFunc))
    : gmap string (gmap Conn CancelFunc) :=
  <[room := <[c := cancel]> (default ∅ (subs !! room))]> subs.

Definition Unregister (room : string) (c : Conn)
    (subs : gmap string (gmap Conn CancelFunc))
    : gmap string (gmap Conn CancelFunc) :=
  alter (delete c) room subs.

(** The shared state after a registration and after a removal, the lock
    free before and after. *)
Definition after_register (room : string) (c : Conn) (σ : World) : World :=
  {| subscribes := Register room c (CancelOf (next_ctx σ)) (subscribes σ);
     mu := mu σ; gone := gone σ; cancelled := cancelled σ; open := open σ;
     next_conn := next_conn σ; next_ctx := Pos.succ (next_ctx σ) |}.

Definition after_unregister (room : string) (c : Conn) (σ : World) : World :=
  set_subscribes (Unregister room c) σ.

(** The connection and the context a subscription started in [σ] gets. *)
Definition session_conn (σ : World) : Conn := next_conn σ.

Definition session_ctx (r : Request) (σ : World) : Ctx :=
  WithCancelCtx (r_Context r) (next_ctx σ).

Definition session_cancel (σ : World) : CancelFunc := CancelOf (next_ctx σ).

(** Lines 134-140: what is left of [handleSubscribe] once the session is
    registered. *)
Definition waiting (ctx : Ctx) (rawRoomId : string) (c : Conn) : prog unit :=
  call (ctx_Done ctx);;
  api.unregister rawRoomId c.

(** ** An example environment *)

Module example.

(** The room the example store holds. *)
Definition room_text : string := "01234567-89ab-cdef-0123-456789abcdef".
Definition room_text_upper : string := "01234567-89AB-CDEF-0123-456789ABCDEF".
Definition absent_text : string := "ffffffff-ffff-ffff-ffff-ffffffffffff".

Definition room_id : UUID :=
  ["001"; "035"; "069"; "103"; "137"; "171"; "205"; "239";
   "001"; "035"; "069"; "103"; "137"; "171"; "205"; "239"]%char.

Definition E : Env := {|
  env_Parse := google_uuid_Parse;
  env_GetRoom := λ id,
    if decide (id = room_id)
    then Ok {| Room_ID := room_id; Room_Theme := "ask-me-anything" |}
    else Err pgx_ErrNoRows;
  env_InsertRoom := λ theme, Ok room_id;
  env_Upgrade := λ r, None;
  env_Decode := λ body, Ok body;
  env_Write := λ data, Ok (String.length data)
|}.

(** A GET /subscribe/{room_id} request. *)
Definition subscribe (id : positive) (room : string) : Request :=
  {| req_id := id; URLParams := {["room_id" := room]};
     RemoteAddr := "192.0.2.1:5000"; Body := "" |}.

(** A POST /api/rooms request. *)
Definition create_room (id : positive) : Request :=
  {| req_id := id; URLParams := ∅; RemoteAddr := "192.0.2.1:5000";
     Body := "ask-me-anything" |}.

(** A POST /api/rooms/{room_id}/messages request. *)
Definition create_message (id : positive) (room : string) : Request :=
  {| req_id := id; URLParams := {["room_id" := room]};
     RemoteAddr := "192.0.2.1:5000"; Body := "hello" |}.

(** A world where connection 1 listens to the example room. *)
Definition one_listener : World :=
  {| subscribes := {[room_text := {[1%positive := CancelOf 1]}]};
     mu := false; gone := ∅; cancelled := ∅; open := {[1%positive]};
     next_conn := 2%positive; next_ctx := 2%positive |}.

(** The first session of the example room registered and waiting; a second
    one registered as well; and then the first client gone. *)
Definition first_waiting : World :=
  after_register room_text 1%positive (alloc_conn NewHandler).

Definition second_waiting : World :=
  after_register room_text 2%positive (alloc_conn first_waiting).

Definition first_gone : World := fire (ClientDisconnect 7) second_waiting.

End example.

(** More kinds of calls in a trace. *)
Definition is_InsertRoom (s : step) : bool :=
  match ev s with
  | Event o _ => match o with q_InsertRoom _ _ => true | _ => false end
  end.

Definition is_Lock (s : step) : bool :=
  match ev s with
  | Event o _ => match o with mu_Lock => true | _ => false end
  end.

Definition is_Unlock (s : step) : bool :=
  match ev s with
  | Event o _ => match o with mu_Unlock => true | _ => false end
  end.

Definition is_Done (s : step) : bool :=
  match ev s with
  | Event o _ => match o with ctx_Done _ => true | _ => false end
  end.

Definition is_Write (s : step) : bool :=
  match ev s with
  | Event o _ => match o with w_Write _ => true | _ => false end
  end.

Definition is_slog_Error (s : step) : bool :=
  match ev s with
  | Event o _ => match o with slog_Error _ _ => true | _ => false end
  end.



Definition is_defer (s : step) : bool :=
  match ev s with
  | Event o _ => match o with defer_c_Close _ => true | _ => false end
  end.

Definition is_registry_set (s : step) : bool :=
  match ev s with
  | Event o _ => match o with subscribes_set _ _ _ => true | _ => false end
  end.

Definition is_registry_delete (s : step) : bool :=
  match ev s with
  | Event o _ => match o with subscribes_delete _ _ => true | _ => false end
  end.

Definition is_any_Close (s : step) : bool :=
  match ev s with
  | Event o _ => match o with c_Close _ => true | _ => false end
  end.

(** The connection a step names, and the room text a step names. *)
Definition conn_of (s : step) : option Conn :=
  match ev s with
  | Event o _ =>
      match o with
      | defer_c_Close c | c_Close c | subscribes_set _ c _
      | subscribes_delete _ c => Some c
      | _ => None
      end
  end.

Definition room_of (s : step) : option string :=
  match ev s with
  | Event o _ =>
      match o with
      | subscribes_ok room | subscribes_make room | subscribes_set room _ _
      | subscribes_delete room _ => Some room
      | _ => None
      end
  end.

(** How a run uses the lock: it calls [Lock] only when it does not hold
    [mu] and [Unlock] only when it does, and it holds [mu] neither while it
    waits on [ctx.Done()] nor while it asks the store or the upgrader. *)
Fixpoint lock_used_well (held : bool) (tr : trace) : Prop :=
  match tr with
  | [] => True
  | s :: tr' =>
      (is_Lock s = true → held = false)
      ∧ (is_Unlock s = true → held = true)
      ∧ (is_Done s || is_GetRoom s || is_Upgrade s = true → held = false)
      ∧ lock_used_well (step_holds held s) tr'
  end.

(** The order of a session's calls: the room's set is written only once the
    [Close] is deferred, and the connection is closed only once it has been
    deleted from the set. *)
Fixpoint in_order (deferred_seen deleted : bool) (tr : trace) : Prop :=
  match tr with
  | [] => True
  | s :: tr' =>
      (is_registry_set s = true → deferred_seen = true)
      ∧ (is_any_Close s = true → deleted = true)
      ∧ in_order (deferred_seen || is_defer s) (deleted || is_registry_delete s) tr'
  end.

(** The shared state an ending leaves, if the run came to one. *)
Definition final_world {A} (e : ending A) : option World :=
  match e with
  | Returned _ _ σ => Some σ
  | _ => None
  end.

(** ** Environments that fail, and a session *)

Module failing.

(** The body does not decode. *)
Definition decode : Env := {|
  env_Parse := google_uuid_Parse;
  env_GetRoom := env_GetRoom example.E;
  env_InsertRoom := env_InsertRoom example.E;
  env_Upgrade := env_Upgrade example.E;
  env_Decode := λ body, Err (errors_New "unexpected end of JSON input");
  env_Write := env_Write example.E
|}.

(** The store is down. *)
Definition store : Env := {|
  env_Parse := google_uuid_Parse;
  env_GetRoom := λ id, Err (errors_New "connection refused");
  env_InsertRoom := λ theme, Err (errors_New "connection refused");
  env_Upgrade := env_Upgrade example.E;
  env_Decode := env_Decode example.E;
  env_Write := env_Write example.E
|}.


End failing.

(** The session of a client of the example room that registers, waits
    while a second client subscribes, and goes away. *)
Module session.

Definition r : Request := example.subscribe 7 example.room_text.

Definition tr : trace :=
  fst (exec example.E (api.handleSubscribe r) (entry NewResponseWriter) NewHandler)
  ++ fst (serve example.E
            (waiting (session_ctx r NewHandler) example.room_text 1%positive)
            {| w := NewResponseWriter; deferred := [1%positive] |}
            example.first_gone).

Definition e : ending unit :=
  snd (serve example.E
         (waiting (session_ctx r NewHandler) example.room_text 1%positive)
         {| w := NewResponseWriter; deferred := [1%positive] |}
         example.first_gone).

End session.

(** ** Basic facts *)

Arguments Error : simpl never.
Arguments Write : simpl never.
Arguments Header_Set : simpl never.
Arguments status : simpl never.
Arguments sent_header : simpl never.
Arguments Register : simpl never.
Arguments Unregister : simpl never.

Lemma status_Error msg code rw :
  rw_sent rw = None → status (Error msg code rw) = Some code.
Proof.
  intros H. unfold status, Error, Write, WriteHeader, Header_Set.
  simpl. rewrite H. reflexivity.
Qed.

Lemma body_Error msg code rw :
  rw_body (Error msg code rw) = rw_body rw +:+ msg +:+ newline.
Proof.
  unfold Error, Write, WriteHeader, Header_Set. simpl.
  destruct (rw_sent rw); reflexivity.
Qed.


Lemma Unregister_absent room c subs :
  (∀ m, subs !! room = Some m → m !! c = None) → Unregister room c subs = subs.
Proof.
  intros H. unfold Unregister. apply map_eq. intros room'.
  destruct (decide (room = room')) as [<-|Hne].
  - rewrite lookup_alter_eq. destruct (subs !! room) as [m|] eqn:Hm; [|done].
    simpl. f_equal. apply delete_id. eauto.
  - by rewrite lookup_alter_ne.
Qed.

Lemma Unregister_twice room c subs :
  Unregister room c (Unregister room c subs) = Unregister room c subs.
Proof.
  apply Unregister_absent. intros m. unfold Unregister.
  rewrite lookup_alter_eq. destruct (subs !! room); simpl; [|done].
  intros [= <-]. apply lookup_delete_eq.
Qed.

(** A run with no other goroutine in between is one of the runs. *)
Lemma exec_runs {A} E held (p : prog A) l σ :
  runs alone E held σ p l (fst (exec E p l σ)) (snd (exec E p l σ)).
Proof.
  revert held l σ. induction p as [a|X o k IH]; intros held l σ; simpl.
  - done.
  - destruct (interp E o l σ) as [x l' σ'| | |] eqn:Hi; simpl.
    + right. exists σ. split; [done|]. rewrite Hi. eauto.
    + left. done.
    + right. exists σ. split; [done|]. by rewrite Hi.
    + right. exists σ. split; [done|]. by rewrite Hi.
Qed.

Lemma runs_mono {A} (R R' : rely) E held σ0 (p : prog A) l tr e :
  (∀ h σ σ', R h σ σ' → R' h σ σ') →
  runs R E held σ0 p l tr e → runs R' E held σ0 p l tr e.
Proof.
  intros HR. revert held σ0 l tr.
  induction p as [a|X o k IH]; intros held σ0 l tr; simpl; [done|].
  intros [?|[σ [Hσ Hs]]]; [by left|]. right. exists σ. split; [by apply HR|].
  destruct (interp E o l σ) as [x l1 σ1| | |]; try done.
  destruct Hs as [tr' [-> Hr]]. eauto.
Qed.

(** A run that stopped at a call can be taken up from there. *)
Lemma runs_resume {A} R E held σ0 (p : prog A) l tr1 p' l' σ' tr2 e :
  runs R E held σ0 p l tr1 (Blocked p' l' σ') →
  runs R E (held_after tr1 held) σ' p' l' tr2 e →
  runs R E held σ0 p l (tr1 ++ tr2) e.
Proof.
  revert held σ0 l tr1. induction p as [a|X o k IH]; intros held σ0 l tr1; simpl.
  - intros [_ ?]. done.
  - intros [[-> Hb]|[σ [Hσ Hs]]] H2.
    + assert (p' = Vis o k) as -> by congruence.
      assert (l' = l) as -> by congruence.
      assert (σ' = σ0) as -> by congruence. exact H2.
    + right. exists σ. split; [done|].
      destruct (interp E o l σ) as [x l1 σ1| | |]; try done.
      * destruct Hs as [tr' [-> Hr]]. exists (tr' ++ tr2). split; [done|]. eauto.
      * by destruct Hs.
      * by destruct Hs.
Qed.

(** A run that makes at least one call may as well start from another
    state, if the first call's state can be reached from there. *)
Lemma runs_from {A} (R : rely) E held σ0 σ1 (p : prog A) l s tr e :
  (∀ σ, R held σ1 σ → R held σ0 σ) →
  runs R E held σ1 p l (s :: tr) e → runs R E held σ0 p l (s :: tr) e.
Proof.
  intros HR. destruct p as [a|X o k]; simpl; [by intros [? _]|].
  intros [[? _]|[σ [Hσ Hs]]]; [done|]. right. exists σ. split; [auto|done].
Qed.

(** ** The setup errors of [handleSubscribe] *)

Local Ltac run_exec :=
  unfold serve, api.handleSubscribe, api.handleCreateRoom; cbn.

(** C5: a room id that [uuid.Parse] rejects is answered with status 400 and
    "Invalid room id"; the handler returns without having asked the store or
    the upgrader, and it leaves the shared state, the registry with it, as
    it was at every step. *)
Theorem handleSubscribe_invalid_room_id E r rw σ err :
  rw_sent rw = None →
  env_Parse E (chi_URLParam r "room_id") = Err err →
  ∃ tr l',
    serve E (api.handleSubscribe r) (entry rw) σ = (tr, Returned () l' σ)
    ∧ status (w l') = Some StatusBadRequest
    ∧ rw_body (w l') = rw_body rw +:+ "Invalid room id" +:+ newline
    ∧ count is_GetRoom tr = 0%nat
    ∧ count is_Upgrade tr = 0%nat
    ∧ Forall (λ s, before s = σ ∧ after s = σ) tr.
Proof.
  intros Hrw Hparse. run_exec. rewrite Hparse. cbn.
  eexists _, _. split; [reflexivity|]. cbn.
  split; [by apply status_Error|].
  split; [apply body_Error|].
  repeat split; repeat constructor.
Qed.

Lemma handleSubscribe_invalid_room_id_witness :
  ∃ tr l',
    serve example.E (api.handleSubscribe (example.subscribe 1 "not-a-uuid"))
      (entry NewResponseWriter) NewHandler = (tr, Returned () l' NewHandler)
    ∧ status (w l') = Some StatusBadRequest
    ∧ rw_body (w l') = rw_body NewResponseWriter +:+ "Invalid room id" +:+ newline
    ∧ count is_GetRoom tr = 0%nat
    ∧ count is_Upgrade tr = 0%nat
    ∧ Forall (λ s, before s = NewHandler ∧ after s = NewHandler) tr.
Proof.
  apply (handleSubscribe_invalid_room_id example.E
           (example.subscribe 1 "not-a-uuid") NewResponseWriter NewHandler
           (errors_New "invalid UUID length")); reflexivity.
Defined.

(** C4, as the code has it: a well-formed room id that the store reports
    as having no row is answered with the message "Room not found" under
    status 400; the handler returns without having called the upgrader and
    leaves the shared state, so every registry entry, as it was at every
    step. *)
Theorem handleSubscribe_room_not_found E r rw σ roomId err :
  rw_sent rw = None →
  env_Parse E (chi_URLParam r "room_id") = Ok roomId →
  env_GetRoom E roomId = Err err →
  errors_Is_ErrNoRows err = true →
  ∃ tr l',
    serve E (api.handleSubscribe r) (entry rw) σ = (tr, Returned () l' σ)
    ∧ status (w l') = Some StatusBadRequest
    ∧ rw_body (w l') = rw_body rw +:+ "Room not found" +:+ newline
    ∧ count is_Upgrade tr = 0%nat
    ∧ Forall (λ s, before s = σ ∧ after s = σ) tr.
Proof.
  intros Hrw Hparse Hget Hrows. run_exec. rewrite Hparse. cbn.
  rewrite Hget. cbn. rewrite Hrows. cbn.
  eexists _, _. split; [reflexivity|]. cbn.
  split; [by apply status_Error|].
  split; [apply body_Error|].
  repeat split; repeat constructor.
Qed.

Lemma handleSubscribe_room_not_found_witness :
  ∃ tr l',
    serve example.E
      (api.handleSubscribe (example.subscribe 1 example.absent_text))
      (entry NewResponseWriter) example.one_listener
    = (tr, Returned () l' example.one_listener)
    ∧ status (w l') = Some StatusBadRequest
    ∧ rw_body (w l') = rw_body NewResponseWriter +:+ "Room not found" +:+ newline
    ∧ count is_Upgrade tr = 0%nat
    ∧ Forall (λ s, before s = example.one_listener
                   ∧ after s = example.one_listener) tr.
Proof.
  eapply (handleSubscribe_room_not_found example.E
            (example.subscribe 1 example.absent_text) NewResponseWriter
            example.one_listener _ pgx_ErrNoRows); reflexivity.
Defined.

(** C4, as the claim states it, fails: the status sent for a room with no
    row is 400, the same as for a malformed id, and not the not-found
    status 404. *)
Lemma handleSubscribe_room_not_found_status_400 :
  ∃ tr l' σ',
    serve example.E
      (api.handleSubscribe (example.subscribe 1 example.absent_text))
      (entry NewResponseWriter) example.one_listener
    = (tr, Returned () l' σ')
    ∧ status (w l') = Some StatusBadRequest
    ∧ status (w l') ≠ Some StatusNotFound.
Proof.
  eexists _, _, _. split; [reflexivity|]. split; [reflexivity|].
  vm_compute. discriminate.
Qed.

(** ** Registration and removal under the lock *)

Local Ltac split_on t :=
  lazymatch t with
  | context [if ?b then _ else _] => first [ split_on b | destruct b eqn:? ]
  | context [match ?x with _ => _ end] => first [ split_on x | destruct x eqn:? ]
  end.

(** Take a run apart, call by call. *)
Local Ltac inv_run H :=
  cbn in H;
  lazymatch type of H with
  | False => destruct H
  | (_ = [] ∧ _ = _) ∨ _ =>
      let σ := fresh "σ" in
      let HR := fresh "HR" in
      destruct H as [[-> ->]|[σ [HR H]]]; [ | inv_run H ]
  | ∃ tr', _ = _ :: tr' ∧ _ =>
      let tr := fresh "tr" in destruct H as [tr [-> H]]; inv_run H
  | _ = [] ∧ _ = _ => destruct H as [-> ->]
  | runs _ _ _ _ ?p _ _ _ => split_on p; inv_run H
  | ?T => split_on T; inv_run H
  end.

Local Ltac use_rely :=
  repeat match goal with
  | HR : respects_lock true _ _ |- _ =>
      let Hm := fresh "Hmu" in
      let Hs := fresh "Hsubs" in
      destruct (HR eq_refl) as [Hm Hs]; clear HR
  | HR : respects_lock false _ _ |- _ => clear HR
  | HR : anything _ _ _ |- _ => clear HR
  end;
  simpl in *.

(** Express every registry met in a run by the first one. *)
Local Ltac norm_subs :=
  repeat match goal with
  | H : subscribes ?σ = _ |- _ =>
      is_var σ; rewrite ?H in *;
      first [ clear H
            | match goal with |- _ => revert H end ]
  end; intros.

Lemma Register_lookup room c cancel subs :
  Register room c cancel subs !! room
  = Some (<[c := cancel]> (default ∅ (subs !! room))).
Proof. unfold Register. apply lookup_insert_eq. Qed.

Lemma Register_lookup_ne room room' c cancel subs :
  room' ≠ room → Register room c cancel subs !! room' = subs !! room'.
Proof. intros Hne. unfold Register. by rewrite lookup_insert_ne. Qed.

Lemma Register_present room c cancel subs m :
  subs !! room = Some m →
  <[room := <[c := cancel]> m]> subs = Register room c cancel subs.
Proof. intros H. unfold Register. by rewrite H. Qed.

Lemma Register_absent room c cancel subs subs' m :
  subs !! room = None →
  subs' = <[room := ∅]> subs →
  subs' !! room = Some m →
  <[room := <[c := cancel]> m]> subs' = Register room c cancel subs.
Proof.
  intros H -> Hm. rewrite lookup_insert_eq in Hm. injection Hm as <-.
  unfold Register. rewrite H. simpl. apply insert_insert_eq.
Qed.

(** What a run of [register] leaves, in terms of the state in which it took
    the lock. *)
Lemma register_runs E r room c l σ0 tr e :
  runs respects_lock E false σ0 (api.register r room c) l tr e →
  match e with
  | Returned ctx l' σ' =>
      ∃ s tr' id,
        tr = s :: tr' ∧ mu (before s) = false
        ∧ ctx = WithCancelCtx (r_Context r) id
        ∧ subscribes σ' = Register room c (CancelOf id) (subscribes (before s))
        ∧ mu σ' = false ∧ l' = l
  | Blocked _ _ _ => True
  | Panicked _ _ _ | Crashed _ => False
  end.
Proof.
  unfold api.register. intros H. inv_run H; try done; use_rely; norm_subs.
  all: try congruence.
  all: try (rewrite lookup_insert_eq in Heqo; done).
  all: try (rewrite Heqo in Heqb0; done).
  - eexists _, _, _. split; [reflexivity|]. simpl.
    repeat split; try done.
    apply negb_true_iff, bool_decide_eq_false in Heqb0.
    eapply Register_absent; [|reflexivity|done].
    by apply eq_None_not_Some.
  - eexists _, _, _. split; [reflexivity|]. simpl.
    repeat split; try done. by apply Register_present.
Qed.

Lemma alone_respects_lock h σ σ' : alone h σ σ' → respects_lock h σ σ'.
Proof. unfold alone, respects_lock. by intros ->. Qed.

Lemma alone_anything h σ σ' : alone h σ σ' → anything h σ σ'.
Proof. done. Qed.


(** With the lock free and no other goroutine, [register] returns. *)

(** What a run of [unregister] leaves, in terms of the state in which it
    took the lock. *)
Lemma unregister_runs E room c l σ0 tr e :
  runs respects_lock E false σ0 (api.unregister room c) l tr e →
  match e with
  | Returned _ l' σ' =>
      ∃ s tr',
        tr = s :: tr' ∧ mu (before s) = false
        ∧ subscribes σ' = Unregister room c (subscribes (before s))
        ∧ mu σ' = false ∧ l' = l
  | Blocked _ _ _ => True
  | Panicked _ _ _ | Crashed _ => False
  end.
Proof.
  unfold api.unregister. intros H. inv_run H; try done; use_rely; norm_subs.
  all: try congruence.
  eexists _, _. split; [reflexivity|]. done.
Qed.

(** With the lock free and no other goroutine, [unregister] returns. *)
Lemma unregister_exec E room c l σ :
  mu σ = false →
  exec E (api.unregister room c) l σ
  = ([ {| before := σ; ev := Event mu_Lock (); after := set_mu true σ |};
       {| before := set_mu true σ; ev := Event (subscribes_delete room c) ();
          after := set_subscribes (Unregister room c) (set_mu true σ) |};
       {| before := set_subscribes (Unregister room c) (set_mu true σ);
          ev := Event mu_Unlock ();
          after := set_subscribes (Unregister room c) σ |} ],
     Returned () l (set_subscribes (Unregister room c) σ)).
Proof.
  intros Hmu. unfold api.unregister. cbn. rewrite Hmu. cbn.
  destruct σ; simpl in *; subst. reflexivity.
Qed.

Lemma set_subscribes_id f σ :
  f (subscribes σ) = subscribes σ → set_subscribes f σ = σ.
Proof. destruct σ. unfold set_subscribes. simpl. by intros ->. Qed.

Lemma Snapshot_absent σ room c :
  c ∉ Snapshot σ room → ∀ m, subscribes σ !! room = Some m → m !! c = None.
Proof.
  unfold Snapshot. intros Hc m Hm. rewrite Hm in Hc. simpl in Hc.
  by apply not_elem_of_dom.
Qed.

(** Running a sequence: the first part, then the rest. *)
Lemma exec_bind {A B} E (p : prog A) (f : A → prog B) l σ :
  exec E (prog_bind f p) l σ
  = match exec E p l σ with
    | (tr, Returned a l' σ') =>
        let r := exec E (f a) l' σ' in (tr ++ fst r, snd r)
    | (tr, Blocked p' l' σ') => (tr, Blocked (prog_bind f p') l' σ')
    | (tr, Panicked msg l' σ') => (tr, Panicked msg l' σ')
    | (tr, Crashed msg) => (tr, Crashed msg)
    end.
Proof.
  revert l σ. induction p as [a|X o k IH]; intros l σ; simpl.
  - by destruct (exec E (f a) l σ).
  - destruct (interp E o l σ) as [x l' σ'| | |]; try done.
    rewrite IH. destruct (exec E (k x) l' σ') as [tr []]; done.
Qed.

(** With the lock free and no other goroutine, [register] returns. *)
Lemma register_exec E r room c l σ :
  mu σ = false →
  ∃ tr,
    exec E (api.register r room c) l σ
    = (tr, Returned (WithCancelCtx (r_Context r) (next_ctx σ)) l
             (after_register room c σ))
    ∧ (∀ room' c', count (is_delete room' c') tr = 0%nat)
    ∧ (∀ c', count (is_close c') tr = 0%nat)
    ∧ (∀ c', count (is_upgraded c') tr = 0%nat).
Proof.
  intros Hmu. unfold api.register. cbn. rewrite Hmu. cbn.
  assert (∀ m, {| subscribes := <[room := <[c := CancelOf (next_ctx σ)]> m]> (subscribes σ);
                  mu := false; gone := gone σ; cancelled := cancelled σ;
                  open := open σ; next_conn := next_conn σ;
                  next_ctx := Pos.succ (next_ctx σ) |} = after_register room c σ
               ↔ <[room := <[c := CancelOf (next_ctx σ)]> m]> (subscribes σ)
                 = Register room c (CancelOf (next_ctx σ)) (subscribes σ)) as Hw.
  { intros m. unfold after_register. rewrite Hmu. split; [congruence|by intros ->]. }
  destruct (subscribes σ !! room) as [m|] eqn:Hroom; cbn.
  - rewrite Hroom. cbn. eexists. split.
    + do 2 f_equal. unfold set_mu, set_subscribes, alloc_ctx; simpl.
      apply Hw. by apply Register_present.
    + done.
  - rewrite lookup_insert_eq. cbn. eexists. split.
    + do 2 f_equal. unfold set_mu, set_subscribes, alloc_ctx; simpl.
      rewrite insert_insert_eq. apply Hw.
      unfold Register. by rewrite Hroom.
    + done.
Qed.

(** C6: registration does not fail.  In every run of lines 120-132 among
    goroutines that keep the discipline of the lock, the block neither
    panics nor crashes: it waits for the lock or returns; when it returns,
    the room's listener set is the one found when the lock was taken (the
    empty one if there was none) with the session added, and every other
    room's entry is as it was then.  With the lock free and nobody else
    running it does return. *)
Theorem register_never_fails E r room c l σ0 tr e :
  runs respects_lock E false σ0 (api.register r room c) l tr e →
  match e with
  | Returned ctx l' σ' =>
      ∃ s tr' id,
        tr = s :: tr'
        ∧ ctx = WithCancelCtx (r_Context r) id
        ∧ subscribes σ' !! room
          = Some (<[c := CancelOf id]> (default ∅ (subscribes (before s) !! room)))
        ∧ c ∈ Snapshot σ' room
        ∧ (∀ room', room' ≠ room →
             subscribes σ' !! room' = subscribes (before s) !! room')
  | Blocked _ _ _ => True
  | Panicked _ _ _ | Crashed _ => False
  end
  ∧ (mu σ0 = false →
     ∃ tr0 ctx σ', exec E (api.register r room c) l σ0 = (tr0, Returned ctx l σ')).
Proof.
  intros H. split.
  - apply register_runs in H. destruct e as [ctx l' σ'| | |]; try done.
    destruct H as (s & tr' & id & -> & _ & -> & Hsubs & _ & _).
    exists s, tr', id. unfold Snapshot. rewrite Hsubs.
    split; [done|]. split; [done|].
    split; [apply Register_lookup|].
    split.
    + rewrite Register_lookup. simpl. set_solver.
    + intros room' Hne. by apply Register_lookup_ne.
  - intros Hmu. destruct (register_exec E r room c l σ0 Hmu) as (tr0 & Hexec & _).
    eauto.
Qed.

Lemma register_never_fails_witness :
  let run := exec example.E
               (api.register (example.subscribe 7 example.room_text_upper)
                  example.room_text_upper 2%positive)
               (entry NewResponseWriter) example.one_listener in
  match snd run with
  | Returned ctx l' σ' =>
      ∃ s tr' id,
        fst run = s :: tr'
        ∧ ctx = WithCancelCtx (r_Context (example.subscribe 7 example.room_text_upper)) id
        ∧ subscribes σ' !! example.room_text_upper
          = Some (<[2%positive := CancelOf id]>
                    (default ∅ (subscribes (before s) !! example.room_text_upper)))
        ∧ 2%positive ∈ Snapshot σ' example.room_text_upper
        ∧ (∀ room', room' ≠ example.room_text_upper →
             subscribes σ' !! room' = subscribes (before s) !! room')
  | Blocked _ _ _ => True
  | Panicked _ _ _ | Crashed _ => False
  end
  ∧ (mu example.one_listener = false →
     ∃ tr0 ctx σ',
       exec example.E
         (api.register (example.subscribe 7 example.room_text_upper)
            example.room_text_upper 2%positive)
         (entry NewResponseWriter) example.one_listener
       = (tr0, Returned ctx (entry NewResponseWriter) σ')).
Proof.
  intros run.
  apply (register_never_fails example.E
           (example.subscribe 7 example.room_text_upper)
           example.room_text_upper 2%positive (entry NewResponseWriter)
           example.one_listener (fst run) (snd run)).
  apply runs_mono with (R := alone); [apply alone_respects_lock|].
  exact (exec_runs example.E false
           (api.register (example.subscribe 7 example.room_text_upper)
              example.room_text_upper 2%positive)
           (entry NewResponseWriter) example.one_listener).
Defined.

(** C7: removing a session that is not in the room's listener set changes
    nothing and raises no error, and removing twice is removing once.  With
    the lock free, lines 136-140 return; if the session is not in the set
    (or the room has no set) the shared state is the same as before; run
    twice they leave what one run leaves; and among goroutines that keep the
    discipline of the lock no run of them panics or crashes. *)
Theorem unregister_idempotent E room c l σ :
  mu σ = false →
  (∃ tr, exec E (api.unregister room c) l σ
         = (tr, Returned () l (after_unregister room c σ)))
  ∧ (c ∉ Snapshot σ room → after_unregister room c σ = σ)
  ∧ snd (exec E (api.unregister room c;; api.unregister room c) l σ)
    = snd (exec E (api.unregister room c) l σ)
  ∧ (∀ σ0 tr e,
       runs respects_lock E false σ0 (api.unregister room c) l tr e →
       match e with Panicked _ _ _ | Crashed _ => False | _ => True end).
Proof.
  intros Hmu. split; [|split; [|split]].
  - rewrite unregister_exec by done. eauto.
  - intros Hc. apply set_subscribes_id, Unregister_absent.
    by apply Snapshot_absent.
  - change (api.unregister room c;; api.unregister room c)
      with (prog_bind (λ _, api.unregister room c) (api.unregister room c)).
    rewrite exec_bind, !unregister_exec by done. simpl. f_equal.
    destruct σ; unfold set_subscribes; simpl. f_equal. apply Unregister_twice.
  - intros σ0 tr e H. apply unregister_runs in H. by destruct e.
Qed.

Lemma unregister_idempotent_witness :
  (∃ tr, exec example.E (api.unregister example.room_text 9%positive)
           (entry NewResponseWriter) example.one_listener
         = (tr, Returned () (entry NewResponseWriter)
                  (after_unregister example.room_text 9%positive
                     example.one_listener)))
  ∧ (9%positive ∉ Snapshot example.one_listener example.room_text →
     after_unregister example.room_text 9%positive example.one_listener
     = example.one_listener)
  ∧ snd (exec example.E
           (api.unregister example.room_text 9%positive;;
            api.unregister example.room_text 9%positive)
           (entry NewResponseWriter) example.one_listener)
    = snd (exec example.E (api.unregister example.room_text 9%positive)
             (entry NewResponseWriter) example.one_listener)
  ∧ (∀ σ0 tr e,
       runs respects_lock example.E false σ0
         (api.unregister example.room_text 9%positive)
         (entry NewResponseWriter) tr e →
       match e with Panicked _ _ _ | Crashed _ => False | _ => True end).
Proof.
  apply (unregister_idempotent example.E example.room_text 9%positive
           (entry NewResponseWriter) example.one_listener).
  reflexivity.
Defined.

(** C8: a removal deletes the one session and nothing else.  When a run of
    lines 136-140, among goroutines that keep the discipline of the lock,
    returns: a room that had a listener set still has one, now without the
    session, empty or not; a room without a set still has none; every other
    session of the room is as it was; and so is every other room. *)
Theorem unregister_frame E room c l σ0 tr e :
  runs respects_lock E false σ0 (api.unregister room c) l tr e →
  match e with
  | Returned _ _ σ' =>
      ∃ s tr',
        tr = s :: tr'
        ∧ subscribes σ' !! room = delete c <$> subscribes (before s) !! room
        ∧ (∀ m, subscribes (before s) !! room = Some m →
             ∃ m', subscribes σ' !! room = Some m'
                   ∧ m' !! c = None
                   ∧ ∀ c', c' ≠ c → m' !! c' = m !! c')
        ∧ (∀ room', room' ≠ room →
             subscribes σ' !! room' = subscribes (before s) !! room')
  | _ => True
  end.
Proof.
  intros H. apply unregister_runs in H. destruct e as [[] l' σ'| | |]; try done.
  destruct H as (s & tr' & -> & _ & Hsubs & _ & _).
  exists s, tr'. rewrite Hsubs. unfold Unregister.
  split; [done|]. split; [apply lookup_alter_eq|]. split.
  - intros m Hm. exists (delete c m). rewrite lookup_alter_eq, Hm. simpl.
    split; [done|]. split; [apply lookup_delete_eq|].
    intros c' Hne. by apply lookup_delete_ne.
  - intros room' Hne. by apply lookup_alter_ne.
Qed.

Lemma unregister_frame_witness :
  let run := exec example.E (api.unregister example.room_text 1%positive)
               (entry NewResponseWriter) example.one_listener in
  match snd run with
  | Returned _ _ σ' =>
      ∃ s tr',
        fst run = s :: tr'
        ∧ subscribes σ' !! example.room_text
          = delete 1%positive <$> subscribes (before s) !! example.room_text
        ∧ (∀ m, subscribes (before s) !! example.room_text = Some m →
             ∃ m', subscribes σ' !! example.room_text = Some m'
                   ∧ m' !! 1%positive = None
                   ∧ ∀ c', c' ≠ 1%positive → m' !! c' = m !! c')
        ∧ (∀ room', room' ≠ example.room_text →
             subscribes σ' !! room' = subscribes (before s) !! room')
  | _ => True
  end.
Proof.
  intros run.
  apply (unregister_frame example.E example.room_text 1%positive
           (entry NewResponseWriter) example.one_listener (fst run) (snd run)).
  apply runs_mono with (R := alone); [apply alone_respects_lock|].
  exact (exec_runs example.E false
           (api.unregister example.room_text 1%positive)
           (entry NewResponseWriter) example.one_listener).
Defined.

(** The emptied listener set of the example stays in the registry. *)
Example unregister_keeps_empty_entry :
  match snd (exec example.E (api.unregister example.room_text 1%positive)
               (entry NewResponseWriter) example.one_listener)
  with
  | Returned _ _ σ' => subscribes σ' !! example.room_text = Some ∅
  | _ => False
  end.
Proof. vm_compute. reflexivity. Qed.

(** ** A session from setup to teardown *)

Arguments api.register : simpl never.
Arguments api.unregister : simpl never.


(** With the lock free, the token not fired and nobody else running, a
    subscription to an existing room gets as far as line 134 and waits there,
    registered. *)
Lemma handleSubscribe_setup E r rw σ roomId room :
  env_Parse E (chi_URLParam r "room_id") = Ok roomId →
  env_GetRoom E roomId = Ok room →
  env_Upgrade E r = None →
  mu σ = false →
  ctx_done σ (session_ctx r σ) = false →
  ∃ tr,
    serve E (api.handleSubscribe r) (entry rw) σ
    = (tr, Blocked (waiting (session_ctx r σ) (chi_URLParam r "room_id")
                      (session_conn σ))
             {| w := rw; deferred := [session_conn σ] |}
             (after_register (chi_URLParam r "room_id") (session_conn σ)
                (alloc_conn σ)))
    ∧ (∀ room' c', count (is_delete room' c') tr = 0%nat)
    ∧ (∀ c', count (is_close c') tr = 0%nat)
    ∧ count (is_upgraded (session_conn σ)) tr = 1%nat.
Proof.
  intros Hparse Hget Hup Hmu Hdone.
  destruct (register_exec E r (chi_URLParam r "room_id") (next_conn σ)
              (push_deferred (next_conn σ) (entry rw)) (alloc_conn σ) Hmu)
    as (tr & Hreg & Hdel & Hclose & Hupg).
  cbn in Hreg.
  unfold serve, api.handleSubscribe. cbn. rewrite Hparse. cbn. rewrite Hget. cbn.
  rewrite Hup. cbn. unfold mbind, prog_mbind. rewrite exec_bind, Hreg. cbn.
  cbn in Hdone. rewrite Hdone.
  cbn. eexists. split; [reflexivity|].
  rewrite app_nil_r. unfold count in *. cbn.
  split; [apply Hdel|]. split; [apply Hclose|].
  rewrite bool_decide_eq_true_2 by done. cbn. f_equal. apply Hupg.
Qed.

(** Once the token has fired and the lock is free, the waiting session,
    with nobody else running, unregisters, returns and closes. *)
Lemma handleSubscribe_teardown E ctx room c rw σ :
  ctx_done σ ctx = true →
  mu σ = false →
  ∃ tr,
    serve E (waiting ctx room c) {| w := rw; deferred := [c] |} σ
    = (tr, Returned () {| w := rw; deferred := [] |}
             (set_open (λ s, s ∖ {[c]}) (after_unregister room c σ)))
    ∧ (∀ room' c', count (is_delete room' c') tr
                   = if decide (room' = room ∧ c' = c) then 1%nat else 0%nat)
    ∧ (∀ c', count (is_close c') tr = if decide (c' = c) then 1%nat else 0%nat)
    ∧ (∀ c', count (is_upgraded c') tr = 0%nat).
Proof.
  intros Hdone Hmu. unfold serve, waiting. cbn. rewrite Hdone. cbn.
  rewrite unregister_exec by done. cbn.
  assert (∀ tr0 x σx,
    tr0 = [ {| before := σ; ev := Event (ctx_Done ctx) (); after := σ |};
            {| before := σ; ev := Event mu_Lock (); after := set_mu true σ |};
            {| before := set_mu true σ;
               ev := Event (subscribes_delete room c) ();
               after := set_subscribes (Unregister room c) (set_mu true σ) |};
            {| before := set_subscribes (Unregister room c) (set_mu true σ);
               ev := Event mu_Unlock ();
               after := set_subscribes (Unregister room c) σ |};
            {| before := set_subscribes (Unregister room c) σ;
               ev := Event (c_Close c) x; after := σx |} ] →
    (∀ room' c', count (is_delete room' c') tr0
                 = if decide (room' = room ∧ c' = c) then 1%nat else 0%nat)
    ∧ (∀ c', count (is_close c') tr0 = if decide (c' = c) then 1%nat else 0%nat)
    ∧ (∀ c', count (is_upgraded c') tr0 = 0%nat)) as Hcount.
  { intros tr0 x σx ->. unfold count. cbn. repeat split; intros.
    - repeat case_bool_decide; case_decide; simpl;
        first [done | subst; tauto | intuition congruence].
    - repeat case_bool_decide; case_decide; simpl;
        first [done | subst; tauto | intuition congruence]. }
  destruct (decide (c ∈ open σ)) as [Hin|Hout]; cbn.
  - eexists. split; [reflexivity|]. by eapply Hcount.
  - eexists. split; [|by eapply Hcount]. clear Hcount.
    f_equal. f_equal. unfold after_unregister.
    destruct σ; unfold set_open, set_subscribes; simpl in *.
    f_equal. apply set_eq. intros x.
    rewrite elem_of_difference, elem_of_singleton.
    split; [|by intros [? _]]. intros Hx. split; [done|]. by intros ->.
Qed.

Lemma Snapshot_after_register σ room c room' :
  Snapshot (after_register room c σ) room'
  = if decide (room' = room) then {[c]} ∪ Snapshot σ room else Snapshot σ room'.
Proof.
  unfold Snapshot, after_register. simpl. destruct (decide (room' = room)) as [->|Hne].
  - rewrite Register_lookup. simpl. apply dom_insert_L.
  - by rewrite Register_lookup_ne.
Qed.

Lemma Snapshot_after_unregister σ room c room' :
  Snapshot (after_unregister room c σ) room'
  = if decide (room' = room) then Snapshot σ room ∖ {[c]} else Snapshot σ room'.
Proof.
  unfold Snapshot, after_unregister, Unregister. simpl.
  destruct (decide (room' = room)) as [->|Hne].
  - rewrite lookup_alter_eq. destruct (subscribes σ !! room); simpl.
    + apply dom_delete_L.
    + rewrite dom_empty_L. apply set_eq. intros x.
      rewrite elem_of_difference. split; [done|]. by intros [? _].
  - by rewrite lookup_alter_ne.
Qed.

Lemma ctx_done_fire_disconnect σ req id :
  ctx_done (fire (ClientDisconnect req) σ) (WithCancelCtx (RequestCtx req) id) = true.
Proof.
  simpl. apply orb_true_iff. right. apply bool_decide_eq_true.
  apply elem_of_union_l, elem_of_singleton. done.
Qed.

Lemma ctx_done_fire_eviction σ parent id :
  ctx_done (fire (Eviction (CancelOf id)) σ) (WithCancelCtx parent id) = true.
Proof.
  simpl. apply orb_true_iff. left. apply bool_decide_eq_true.
  apply elem_of_union_l, elem_of_singleton. done.
Qed.

Lemma Snapshot_fire cause σ room : Snapshot (fire cause σ) room = Snapshot σ room.
Proof. by destruct cause as [|[]]. Qed.

Lemma mu_fire cause σ : mu (fire cause σ) = mu σ.
Proof. by destruct cause as [|[]]. Qed.

(** C9: the registry is keyed by the text of the room id as it came in the
    URL.  Two subscriptions whose texts differ but parse to the same UUID are
    both accepted, and each is put in the listener set under its own text:
    the first text's set gains the first connection only, the second text's
    set the second only.  When the first session's token fires, it deletes
    its connection under the text it registered it with, and the other
    text's set is as it was. *)
Theorem registry_keyed_by_raw_string E r1 r2 rw1 rw2 σ roomId room :
  let s1 := chi_URLParam r1 "room_id" in
  let s2 := chi_URLParam r2 "room_id" in
  let c1 := session_conn σ in
  let σ1 := after_register s1 c1 (alloc_conn σ) in
  let c2 := session_conn σ1 in
  let σ2 := after_register s2 c2 (alloc_conn σ1) in
  let σ3 := fire (ClientDisconnect (req_id r1)) σ2 in
  let σ4 := set_open (λ s, s ∖ {[c1]}) (after_unregister s1 c1 σ3) in
  s1 ≠ s2 →
  env_Parse E s1 = Ok roomId →
  env_Parse E s2 = Ok roomId →
  env_GetRoom E roomId = Ok room →
  env_Upgrade E r1 = None →
  env_Upgrade E r2 = None →
  mu σ = false →
  ctx_done σ (session_ctx r1 σ) = false →
  ctx_done σ1 (session_ctx r2 σ1) = false →
  ∃ tr1 tr2 tr3,
    serve E (api.handleSubscribe r1) (entry rw1) σ
    = (tr1, Blocked (waiting (session_ctx r1 σ) s1 c1)
              {| w := rw1; deferred := [c1] |} σ1)
    ∧ serve E (api.handleSubscribe r2) (entry rw2) σ1
      = (tr2, Blocked (waiting (session_ctx r2 σ1) s2 c2)
                {| w := rw2; deferred := [c2] |} σ2)
    ∧ c1 ≠ c2
    ∧ Snapshot σ2 s1 = {[c1]} ∪ Snapshot σ s1
    ∧ Snapshot σ2 s2 = {[c2]} ∪ Snapshot σ s2
    ∧ serve E (waiting (session_ctx r1 σ) s1 c1)
        {| w := rw1; deferred := [c1] |} σ3
      = (tr3, Returned () {| w := rw1; deferred := [] |} σ4)
    ∧ count (is_delete s1 c1) tr3 = 1%nat
    ∧ count (is_delete s2 c1) tr3 = 0%nat
    ∧ Snapshot σ4 s1 = Snapshot σ2 s1 ∖ {[c1]}
    ∧ Snapshot σ4 s2 = Snapshot σ2 s2.
Proof.
  intros s1 s2 c1 σ1 c2 σ2 σ3 σ4 Hne Hp1 Hp2 Hget Hu1 Hu2 Hmu Hd1 Hd2.
  destruct (handleSubscribe_setup E r1 rw1 σ roomId room Hp1 Hget Hu1 Hmu Hd1)
    as (tr1 & Hs1 & _).
  destruct (handleSubscribe_setup E r2 rw2 σ1 roomId room Hp2 Hget Hu2 Hmu Hd2)
    as (tr2 & Hs2 & _).
  destruct (handleSubscribe_teardown E (session_ctx r1 σ) s1 c1 rw1 σ3)
    as (tr3 & Hs3 & Hdel & _).
  { apply ctx_done_fire_disconnect. }
  { done. }
  exists tr1, tr2, tr3.
  split; [exact Hs1|]. split; [exact Hs2|].
  split. { unfold c2, c1, session_conn. simpl. lia. }
  split.
  { unfold σ2. rewrite Snapshot_after_register. rewrite decide_False by done.
    unfold σ1. change (Snapshot (alloc_conn ?x) ?y) with (Snapshot x y).
    rewrite Snapshot_after_register. by rewrite decide_True. }
  split.
  { unfold σ2. rewrite Snapshot_after_register. rewrite decide_True by done.
    unfold σ1. change (Snapshot (alloc_conn ?x) ?y) with (Snapshot x y).
    rewrite Snapshot_after_register. by rewrite decide_False. }
  split; [exact Hs3|].
  split. { rewrite Hdel. by rewrite decide_True. }
  split. { rewrite Hdel. rewrite decide_False; [done|]. by intros [? _]. }
  split.
  { unfold σ4. change (Snapshot (set_open ?f ?x) ?y) with (Snapshot x y).
    rewrite Snapshot_after_unregister. rewrite decide_True by done.
    unfold σ3. by rewrite Snapshot_fire. }
  { unfold σ4. change (Snapshot (set_open ?f ?x) ?y) with (Snapshot x y).
    rewrite Snapshot_after_unregister. rewrite decide_False by done.
    unfold σ3. by rewrite Snapshot_fire. }
Qed.

Lemma registry_keyed_by_raw_string_witness :
  let E := example.E in
  let r1 := example.subscribe 1 example.room_text in
  let r2 := example.subscribe 2 example.room_text_upper in
  let rw1 := NewResponseWriter in
  let rw2 := NewResponseWriter in
  let σ := NewHandler in
  let s1 := chi_URLParam r1 "room_id" in
  let s2 := chi_URLParam r2 "room_id" in
  let c1 := session_conn σ in
  let σ1 := after_register s1 c1 (alloc_conn σ) in
  let c2 := session_conn σ1 in
  let σ2 := after_register s2 c2 (alloc_conn σ1) in
  let σ3 := fire (ClientDisconnect (req_id r1)) σ2 in
  let σ4 := set_open (λ s, s ∖ {[c1]}) (after_unregister s1 c1 σ3) in
  ∃ tr1 tr2 tr3,
    serve E (api.handleSubscribe r1) (entry rw1) σ
    = (tr1, Blocked (waiting (session_ctx r1 σ) s1 c1)
              {| w := rw1; deferred := [c1] |} σ1)
    ∧ serve E (api.handleSubscribe r2) (entry rw2) σ1
      = (tr2, Blocked (waiting (session_ctx r2 σ1) s2 c2)
                {| w := rw2; deferred := [c2] |} σ2)
    ∧ c1 ≠ c2
    ∧ Snapshot σ2 s1 = {[c1]} ∪ Snapshot σ s1
    ∧ Snapshot σ2 s2 = {[c2]} ∪ Snapshot σ s2
    ∧ serve E (waiting (session_ctx r1 σ) s1 c1)
        {| w := rw1; deferred := [c1] |} σ3
      = (tr3, Returned () {| w := rw1; deferred := [] |} σ4)
    ∧ count (is_delete s1 c1) tr3 = 1%nat
    ∧ count (is_delete s2 c1) tr3 = 0%nat
    ∧ Snapshot σ4 s1 = Snapshot σ2 s1 ∖ {[c1]}
    ∧ Snapshot σ4 s2 = Snapshot σ2 s2.
Proof.
  intros E r1 r2 rw1 rw2 σ.
  apply (registry_keyed_by_raw_string E r1 r2 rw1 rw2 σ example.room_id
           {| Room_ID := example.room_id; Room_Theme := "ask-me-anything" |});
    first [ by vm_compute | vm_compute; reflexivity ].
Defined.


(** Take a run of a whole handler apart: its body, then its deferred calls. *)
Local Ltac inv_serves H :=
  let tr1 := fresh "tr" in
  let e1 := fresh "e" in
  let Hbody := fresh "Hbody" in
  let Hrest := fresh "Hrest" in
  destruct H as (tr1 & e1 & Hbody & Hrest);
  unfold api.handleSubscribe, api.handleCreateRoom, api.register,
    api.unregister in Hbody;
  inv_run Hbody;
  cbn in Hrest;
  first
    [ destruct Hrest as [-> ->]
    | let tr2 := fresh "tr" in
      let H2 := fresh "Hdefer" in
      destruct Hrest as (tr2 & H2 & ->); inv_run H2
    | let tr2 := fresh "tr" in
      let e2 := fresh "e" in
      let H2 := fresh "Hdefer" in
      destruct Hrest as (tr2 & e2 & H2 & -> & ->); inv_run H2 ].

(** Under the discipline of the lock neither the write to the room's set
    nor the unlock can fail. *)
Local Ltac no_failure :=
  first
    [ congruence
    | match goal with
      | H : <[_ := _]> _ !! _ = None |- _ =>
          by rewrite lookup_insert_eq in H
      | H1 : negb (bool_decide (is_Some (?m !! ?k))) = false,
        H2 : ?m !! ?k = None |- _ =>
          by rewrite H2 in H1
      end ].

Lemma count_app f tr1 tr2 :
  count f (tr1 ++ tr2) = (count f tr1 + count f tr2)%nat.
Proof. unfold count. by rewrite List.filter_app, List.length_app. Qed.

(** C3: a session is removed once and closed once.  Take any run of the
    subscribe handler among goroutines that keep the discipline of the lock,
    in which the upgrade made connection [c].  The run does not panic or
    crash.  If it has returned, which it does only after the token fired, it
    made exactly one delete of [c] under the room's text and exactly one
    [Close] of [c]; if it has not, it made at most one delete and no [Close]
    yet.  And it does get there: once the session waits at line 134, if the
    token fires, by the client's disconnect or by a call of the stored cancel
    function alike, and the lock is free, the handler returns, the connection
    gone from the room's listener set and closed. *)
Theorem session_removed_and_closed_once E r rw σ0 tr e c :
  let room := chi_URLParam r "room_id" in
  serves respects_lock E (api.handleSubscribe r) (entry rw) σ0 tr e →
  (1 ≤ count (is_upgraded c) tr)%nat →
  match e with
  | Returned _ _ _ =>
      count (is_delete room c) tr = 1%nat ∧ count (is_close c) tr = 1%nat
  | Blocked _ _ _ =>
      (count (is_delete room c) tr ≤ 1)%nat ∧ count (is_close c) tr = 0%nat
  | Panicked _ _ _ | Crashed _ => False
  end
  ∧ ∀ roomId found cause σ1,
      env_Parse E room = Ok roomId →
      env_GetRoom E roomId = Ok found →
      env_Upgrade E r = None →
      mu σ0 = false →
      ctx_done σ0 (session_ctx r σ0) = false →
      (cause = ClientDisconnect (req_id r)
       ∨ cause = Eviction (session_cancel σ0)) →
      mu σ1 = false →
      ∃ tr1 tr2 l σ' σ'',
        serve E (api.handleSubscribe r) (entry rw) σ0
        = (tr1, Blocked (waiting (session_ctx r σ0) room (session_conn σ0)) l σ')
        ∧ serve E (waiting (session_ctx r σ0) room (session_conn σ0)) l
            (fire cause σ1)
          = (tr2, Returned () (clear_deferred l) σ'')
        ∧ count (is_delete room (session_conn σ0)) (tr1 ++ tr2) = 1%nat
        ∧ count (is_close (session_conn σ0)) (tr1 ++ tr2) = 1%nat
        ∧ (session_conn σ0 ∉ Snapshot σ'' room)
        ∧ (session_conn σ0 ∉ open σ'').
Proof.
  intros room H Hup. split.
  - subst room. inv_serves H.
    all: unfold count in *; cbn in Hup; try lia.
    all: try (case_bool_decide; [subst c|cbn in Hup; lia]).
    all: cbn; rewrite ?bool_decide_eq_true_2 by done; cbn;
      try (split; [lia|done]); try done.
    all: use_rely; norm_subs; no_failure.
  - clear. intros roomId found cause σ1 Hparse Hget Hupg Hmu Hdone Hcause Hmu1.
    destruct (handleSubscribe_setup E r rw σ0 roomId found Hparse Hget Hupg Hmu Hdone)
      as (tr1 & Hs1 & Hdel1 & Hclose1 & _).
    destruct (handleSubscribe_teardown E (session_ctx r σ0) room (session_conn σ0)
                rw (fire cause σ1)) as (tr2 & Hs2 & Hdel2 & Hclose2 & _).
    { destruct Hcause as [-> | ->].
      - apply ctx_done_fire_disconnect.
      - apply ctx_done_fire_eviction. }
    { by rewrite mu_fire. }
    eexists tr1, tr2, _, _, _. split; [exact Hs1|]. split; [exact Hs2|].
    rewrite !count_app, Hdel1, Hclose1, Hdel2, Hclose2.
    rewrite decide_True by done. rewrite decide_True by done.
    split; [done|]. split; [done|]. split.
    + change (Snapshot (set_open ?f ?x) ?y) with (Snapshot x y).
      rewrite Snapshot_after_unregister, decide_True by done.
      rewrite elem_of_difference, elem_of_singleton. by intros [_ ?].
    + simpl. rewrite elem_of_difference, elem_of_singleton. by intros [_ ?].
Qed.

(** A handler served with no other goroutine in between is one of the
    runs. *)
Lemma serve_serves E p l σ :
  serves alone E p l σ (fst (serve E p l σ)) (snd (serve E p l σ)).
Proof.
  unfold serve, serves.
  pose proof (exec_runs E false p l σ) as Hbody.
  destruct (exec E p l σ) as [tr1 e1]. simpl in Hbody.
  exists tr1, e1. split; [done|].
  destruct e1 as [[] l' σ'|p' l' σ'|msg l' σ'|msg]; simpl; [| done | | done].
  - eexists. split; [apply exec_runs|done].
  - pose proof (exec_runs E (held_after tr1 false)
                  (deferred_calls (deferred l')) (clear_deferred l') σ') as Hd.
    destruct (exec E (deferred_calls (deferred l')) (clear_deferred l') σ')
      as [tr2 e2].
    exists tr2, e2. split; [done|]. by destruct e2.
Qed.

Lemma serves_mono (R R' : rely) E p l σ0 tr e :
  (∀ h σ σ', R h σ σ' → R' h σ σ') →
  serves R E p l σ0 tr e → serves R' E p l σ0 tr e.
Proof.
  intros HR (tr1 & e1 & Hbody & Hrest). exists tr1, e1.
  split; [by eapply runs_mono|].
  destruct e1 as [[] l' σ'|p' l' σ'|msg l' σ'|msg]; try done.
  - destruct Hrest as (tr2 & ? & ?). exists tr2. split; [by eapply runs_mono|done].
  - destruct Hrest as (tr2 & e2 & ? & ?). exists tr2, e2.
    split; [by eapply runs_mono|done].
Qed.

(** ** No registration before the upgrade *)

(** C2: nothing is registered before the upgrade has succeeded.  In every
    run of the subscribe handler, whatever the other goroutines do, each of
    its steps up to the first successful upgrade leaves the registry as it
    found it, and a run without a successful upgrade leaves the whole shared
    state as found at every step.  When the setup fails (malformed id, room
    lookup failure, upgrade failure) every run is of that kind, and the
    handler, run with nobody in between, returns with the shared state it
    started from. *)
Theorem no_registration_before_upgrade E r rw σ0 tr e :
  serves anything E (api.handleSubscribe r) (entry rw) σ0 tr e →
  quiet_until_upgrade tr
  ∧ (count is_upgrade_ok tr = 0%nat → Forall (λ s, after s = before s) tr)
  ∧ (setup_fails E r →
       count is_upgrade_ok tr = 0%nat
       ∧ ∃ tr0 l',
           serve E (api.handleSubscribe r) (entry rw) σ0
           = (tr0, Returned () l' σ0)
           ∧ Forall (λ s, before s = σ0 ∧ after s = σ0) tr0).
Proof.
  intros H. split; [|split].
  - inv_serves H; cbn; repeat split; done.
  - intros Hcount. inv_serves H; try done; repeat constructor.
  - intros Hfail. unfold setup_fails in Hfail. split.
    + inv_serves H; try done.
      all: repeat match goal with
           | Heq : _ = _ |- _ => rewrite Heq in Hfail
           end; by destruct Hfail.
    + clear H. unfold serve, api.handleSubscribe. cbn.
      destruct (env_Parse E (chi_URLParam r "room_id")) as [roomId|err]; cbn.
      2: { eexists _, _. split; [reflexivity|]. repeat constructor. }
      destruct (env_GetRoom E roomId) as [found|err]; cbn.
      2: { destruct (errors_Is_ErrNoRows err); cbn;
           (eexists _, _; split; [reflexivity|]; repeat constructor). }
      destruct Hfail as [err Hup]. rewrite Hup. cbn.
      eexists _, _. split; [reflexivity|]. repeat constructor.
Qed.

Lemma no_registration_before_upgrade_witness :
  let E := example.E in
  let r := example.subscribe 1 "not-a-uuid" in
  let rw := NewResponseWriter in
  let σ0 := example.one_listener in
  let tr := fst (serve E (api.handleSubscribe r) (entry rw) σ0) in
  quiet_until_upgrade tr
  ∧ (count is_upgrade_ok tr = 0%nat → Forall (λ s, after s = before s) tr)
  ∧ (setup_fails E r →
       count is_upgrade_ok tr = 0%nat
       ∧ ∃ tr0 l',
           serve E (api.handleSubscribe r) (entry rw) σ0
           = (tr0, Returned () l' σ0)
           ∧ Forall (λ s, before s = σ0 ∧ after s = σ0) tr0).
Proof.
  intros E r rw σ0 tr.
  apply (no_registration_before_upgrade E r rw σ0 tr
           (snd (serve E (api.handleSubscribe r) (entry rw) σ0))).
  apply serves_mono with (R := alone); [apply alone_anything|].
  exact (serve_serves E (api.handleSubscribe r) (entry rw) σ0).
Defined.

(** ** The handlers without a body *)

(** C1, as the code has it: no handler broadcasts.  The handler of a new
    message and the other handlers of lines 176-188 have an empty body:
    run alone or among any other goroutines they make no call at all, so
    they reach no connection, whoever is registered, and they leave the
    registry and the rest of the shared state as they are. *)
Theorem message_handlers_broadcast_nothing E r rw σ tr e :
  serves anything E (api.handleCreateRoomMessage r) (entry rw) σ tr e →
  tr = [] ∧ reached tr = ∅ ∧ e = Returned () (entry rw) σ
  ∧ serve E (api.handleCreateRoomMessage r) (entry rw) σ
    = ([], Returned () (entry rw) σ)
  ∧ Forall (λ h : Request → prog unit,
              serve E (h r) (entry rw) σ = ([], Returned () (entry rw) σ))
      [api.handleGetRooms; api.handleMarkMessageAsAnswered;
       api.handleRemoveReactFromMessage; api.handleGetRoomMessage;
       api.handleGetRoomMessages; api.handleReactToMessage].
Proof.
  intros (tr1 & e1 & Hbody & Hrest). cbn in Hbody. destruct Hbody as [-> ->].
  cbn in Hrest. destruct Hrest as (tr2 & [-> ->] & ->).
  repeat split; repeat constructor.
Qed.

Lemma message_handlers_broadcast_nothing_witness :
  let E := example.E in
  let r := example.create_message 3 example.room_text in
  let rw := NewResponseWriter in
  let σ := example.one_listener in
  let run := serve E (api.handleCreateRoomMessage r) (entry rw) σ in
  fst run = [] ∧ reached (fst run) = ∅ ∧ snd run = Returned () (entry rw) σ
  ∧ serve E (api.handleCreateRoomMessage r) (entry rw) σ
    = ([], Returned () (entry rw) σ)
  ∧ Forall (λ h : Request → prog unit,
              serve E (h r) (entry rw) σ = ([], Returned () (entry rw) σ))
      [api.handleGetRooms; api.handleMarkMessageAsAnswered;
       api.handleRemoveReactFromMessage; api.handleGetRoomMessage;
       api.handleGetRoomMessages; api.handleReactToMessage].
Proof.
  intros E r rw σ run.
  apply (message_handlers_broadcast_nothing E r rw σ (fst run) (snd run)).
  apply serves_mono with (R := alone); [apply alone_anything|].
  exact (serve_serves E (api.handleCreateRoomMessage r) (entry rw) σ).
Defined.

(** C1, as the claim states it, fails: with connection 1 registered for the
    room, posting a message reaches no connection, so the connections
    reached are not the sessions of the room's snapshot. *)
Lemma no_delivery_to_the_snapshot :
  let σ := example.one_listener in
  let run := serve example.E
               (api.handleCreateRoomMessage
                  (example.create_message 3 example.room_text))
               (entry NewResponseWriter) σ in
  Snapshot σ example.room_text = {[ 1%positive ]}
  ∧ reached (fst run) = ∅
  ∧ reached (fst run) ≠ Snapshot σ example.room_text.
Proof.
  intros σ run.
  assert (Snapshot σ example.room_text = {[ 1%positive ]}) as Hsnap.
  { unfold Snapshot, σ, example.one_listener. simpl.
    rewrite lookup_singleton_eq. simpl. apply dom_singleton_L. }
  split; [exact Hsnap|]. split; [reflexivity|].
  rewrite Hsnap. change (reached (fst run)) with (∅ : gset Conn).
  intros Heq. apply (not_elem_of_empty (C := gset Conn) 1%positive).
  rewrite Heq. by apply elem_of_singleton.
Qed.

(** ** The answer to a room creation *)

Lemma append_cons b s1 s2 : String b s1 +:+ s2 = String b (s1 +:+ s2).
Proof. reflexivity. Qed.

Lemma append_assoc s1 s2 s3 : (s1 +:+ s2) +:+ s3 = s1 +:+ (s2 +:+ s3).
Proof.
  induction s1 as [|b s1 IH]; [reflexivity|].
  by rewrite !append_cons, IH.
Qed.

Lemma json_string_body_app s1 s2 :
  json_string_body (s1 +:+ s2) = json_string_body s1 +:+ json_string_body s2.
Proof.
  induction s1 as [|b s1 IH]; [reflexivity|].
  rewrite append_cons. cbn [json_string_body]. rewrite IH.
  by rewrite append_assoc.
Qed.

(** Hexadecimal digits need no escaping. *)
Lemma hex_digits_safe (b : byte) :
  htmlSafe (hex_at (N.shiftr (N_of_ascii b) 4)) = true
  ∧ htmlSafe (hex_at (N.land (N_of_ascii b) 15)) = true.
Proof. destruct b as [[] [] [] [] [] [] [] []]; split; reflexivity. Qed.

Lemma json_string_body_hex (src : list byte) :
  json_string_body (hex_Encode src) = hex_Encode src.
Proof.
  induction src as [|v src IH]; [reflexivity|].
  cbn [hex_Encode json_string_body].
  destruct (hex_digits_safe v) as [-> ->]. cbn [orb]. by rewrite IH.
Qed.

(** The text of a UUID is written between quotes as it is. *)
Lemma json_string_uuid (u : UUID) :
  json_string (uuid_String u)
  = String dquote (uuid_String u +:+ String dquote "").
Proof.
  unfold json_string, uuid_String. f_equal. f_equal.
  rewrite !json_string_body_app, !json_string_body_hex. reflexivity.
Qed.

(** The tag written in the source has no colon, so it gives the field no
    name; with the colon it would give the name id. *)
Lemma response_tag_ignored :
  StructTag_Lookup response_ID_tag "json" = None
  ∧ json_field_name "ID" response_ID_tag = Some "ID"
  ∧ json_field_name "ID" ("json:" +:+ String dquote ("id" +:+ String dquote ""))
    = Some "id".
Proof. repeat split; reflexivity. Qed.

Lemma json_Marshal_response (u : UUID) :
  json_Marshal {| ID := uuid_String u |}
  = ("{" +:+ String dquote ("ID" +:+ String dquote
       (":" +:+ String dquote (uuid_String u +:+ String dquote "}"))), None).
Proof.
  unfold json_Marshal.
  change (json_field_name "ID" response_ID_tag) with (Some "ID").
  cbv iota. cbn [ID]. rewrite json_string_uuid. f_equal.
  change (json_string "ID") with (String dquote ("ID" +:+ String dquote "")).
  by rewrite !append_cons, !append_assoc.
Qed.

Arguments json_Marshal : simpl never.

(** C10: a successful room creation is answered with status 200, the header
    Content-Type: application/json, and as body the JSON object with the one
    key ID (the tag of the field, written without a colon, names nothing,
    so the field goes by its Go name) and as its value the text of the new
    room's UUID.  The handler returns whatever [json.Marshal] and [w.Write]
    report, and it leaves the shared state as it was. *)
Theorem handleCreateRoom_response E r rw σ theme roomId :
  rw_sent rw = None →
  env_Decode E (Body r) = Ok theme →
  env_InsertRoom E theme = Ok roomId →
  ∃ tr l',
    serve E (api.handleCreateRoom r) (entry rw) σ = (tr, Returned () l' σ)
    ∧ status (w l') = Some StatusOK
    ∧ sent_header (w l') "Content-Type" = Some "application/json"
    ∧ rw_body (w l')
      = rw_body rw +:+ "{" +:+ String dquote ("ID" +:+ String dquote
          (":" +:+ String dquote (uuid_String roomId +:+ String dquote "}")))
    ∧ json_field_name "ID" response_ID_tag = Some "ID"
    ∧ StructTag_Lookup response_ID_tag "json" = None.
Proof.
  intros Hrw Hdecode Hinsert.
  unfold serve, api.handleCreateRoom. cbn. rewrite Hdecode. cbn.
  rewrite Hinsert. rewrite json_Marshal_response. cbn.
  eexists _, _. split; [reflexivity|]. cbn.
  unfold status, sent_header, Write, WriteHeader, Header_Set. simpl.
  rewrite Hrw. simpl.
  split; [done|]. split; [|done].
  change (CanonicalMIMEHeaderKey "content-type") with "Content-Type".
  change (CanonicalMIMEHeaderKey "Content-Type") with "Content-Type".
  apply lookup_insert_eq.
Qed.

Lemma handleCreateRoom_response_witness :
  ∃ tr l',
    serve example.E (api.handleCreateRoom (example.create_room 4))
      (entry NewResponseWriter) example.one_listener
    = (tr, Returned () l' example.one_listener)
    ∧ status (w l') = Some StatusOK
    ∧ sent_header (w l') "Content-Type" = Some "application/json"
    ∧ rw_body (w l')
      = rw_body NewResponseWriter +:+ "{" +:+ String dquote ("ID" +:+ String dquote
          (":" +:+ String dquote (uuid_String example.room_id +:+ String dquote "}")))
    ∧ json_field_name "ID" response_ID_tag = Some "ID"
    ∧ StructTag_Lookup response_ID_tag "json" = None.
Proof.
  apply (handleCreateRoom_response example.E (example.create_room 4)
           NewResponseWriter example.one_listener "ask-me-anything"
           example.room_id); reflexivity.
Defined.

(** ** The handlers keep the discipline of the lock *)

(** X7: what [respects_lock] asks of the other goroutines is what the
    subscribe handler does itself, whatever happens around it: a step it
    makes while it does not hold [mu] leaves [subscribes] as it found it and
    does not unlock a locked [mu]; it writes to the registry and unlocks
    only between its own [Lock] and [Unlock] (lines 83-141). *)
Lemma handleSubscribe_keeps_discipline E r rw σ0 tr e :
  serves anything E (api.handleSubscribe r) (entry rw) σ0 tr e →
  keeps_discipline false tr.
Proof.
  intros H. inv_serves H; cbn; repeat split; try done.
  all: intros; simpl; congruence.
Qed.

(** So does the handler of a room creation. *)
Lemma handleCreateRoom_keeps_discipline E r rw σ0 tr e :
  serves anything E (api.handleCreateRoom r) (entry rw) σ0 tr e →
  keeps_discipline false tr.
Proof.
  intros H. inv_serves H; cbn; repeat split; try done.
Qed.

(** ** A session among other goroutines *)

(** A handler that waits at a call, run alone up to there and alone again
    from a later state, makes a run among the goroutines that changed the
    state in between. *)
Lemma serves_resume (R : rely) E p l σ0 tr1 p' l' σ' σ1 :
  (∀ h σ σ', alone h σ σ' → R h σ σ') →
  exec E p l σ0 = (tr1, Blocked p' l' σ') →
  held_after tr1 false = false →
  (∀ σ, R false σ1 σ → R false σ' σ) →
  fst (exec E p' l' σ1) ≠ [] →
  serves R E p l σ0 (tr1 ++ fst (serve E p' l' σ1)) (snd (serve E p' l' σ1)).
Proof.
  intros Halone H1 Hheld Hfrom Hne.
  destruct (exec E p' l' σ1) as [[|s tr2] e2] eqn:H2; [done|]. clear Hne.
  pose proof (exec_runs E false p l σ0) as Hr1. rewrite H1 in Hr1. simpl in Hr1.
  pose proof (exec_runs E false p' l' σ1) as Hr2. rewrite H2 in Hr2. simpl in Hr2.
  assert (runs R E false σ0 p l (tr1 ++ s :: tr2) e2) as Hbody.
  { apply (runs_resume R E false σ0 p l tr1 p' l' σ' (s :: tr2) e2).
    - by eapply runs_mono.
    - rewrite Hheld. eapply runs_from; [exact Hfrom|]. by eapply runs_mono. }
  unfold serve, serves. rewrite H2.
  destruct e2 as [[] l2 σ2|p2 l2 σ2|msg l2 σ2|msg]; simpl.
  - exists (tr1 ++ s :: tr2), (Returned () l2 σ2). split; [done|].
    eexists. split; [|by rewrite <- app_assoc].
    eapply runs_mono; [exact Halone|]. apply exec_runs.
  - by exists (tr1 ++ s :: tr2), (Blocked p2 l2 σ2).
  - exists (tr1 ++ s :: tr2), (Panicked msg l2 σ2). split; [done|].
    pose proof (exec_runs E (held_after (tr1 ++ s :: tr2) false)
                  (deferred_calls (deferred l2)) (clear_deferred l2) σ2) as Hd.
    destruct (exec E (deferred_calls (deferred l2)) (clear_deferred l2) σ2)
      as [tr3 e3].
    exists tr3, e3. split; [by eapply runs_mono|].
    destruct e3; simpl; by rewrite <- app_assoc.
  - by exists (tr1 ++ s :: tr2), (Crashed msg).
Qed.


(** A whole session among other goroutines: the handler registers and
    waits; meanwhile a second client subscribes to the same room and the
    first client disconnects; the handler then unregisters and closes. *)
Lemma session_with_interference :
  let E := example.E in
  let r := example.subscribe 7 example.room_text in
  let rw := NewResponseWriter in
  let run1 := exec E (api.handleSubscribe r) (entry rw) NewHandler in
  let run2 := serve E (waiting (session_ctx r NewHandler) example.room_text 1%positive)
                {| w := rw; deferred := [1%positive] |} example.first_gone in
  serves respects_lock E (api.handleSubscribe r) (entry rw) NewHandler
    (fst run1 ++ fst run2) (snd run2).
Proof.
  intros E r rw run1 run2.
  apply (serves_resume respects_lock E (api.handleSubscribe r) (entry rw)
           NewHandler (fst run1)
           (waiting (session_ctx r NewHandler) example.room_text 1%positive)
           {| w := rw; deferred := [1%positive] |}
           example.first_waiting example.first_gone).
  - apply alone_respects_lock.
  - vm_compute. reflexivity.
  - vm_compute. reflexivity.
  - intros σ _ Hheld. discriminate.
  - vm_compute. discriminate.
Qed.

Lemma session_removed_and_closed_once_witness :
  let E := example.E in
  let r := example.subscribe 7 example.room_text in
  let rw := NewResponseWriter in
  let σ0 := NewHandler in
  let room := chi_URLParam r "room_id" in
  let run1 := exec E (api.handleSubscribe r) (entry rw) σ0 in
  let run2 := serve E (waiting (session_ctx r σ0) example.room_text 1%positive)
                {| w := rw; deferred := [1%positive] |} example.first_gone in
  let tr := fst run1 ++ fst run2 in
  let c := 1%positive in
  match snd run2 with
  | Returned _ _ _ =>
      count (is_delete room c) tr = 1%nat ∧ count (is_close c) tr = 1%nat
  | Blocked _ _ _ =>
      (count (is_delete room c) tr ≤ 1)%nat ∧ count (is_close c) tr = 0%nat
  | Panicked _ _ _ | Crashed _ => False
  end
  ∧ ∀ roomId found cause σ1,
      env_Parse E room = Ok roomId →
      env_GetRoom E roomId = Ok found →
      env_Upgrade E r = None →
      mu σ0 = false →
      ctx_done σ0 (session_ctx r σ0) = false →
      (cause = ClientDisconnect (req_id r)
       ∨ cause = Eviction (session_cancel σ0)) →
      mu σ1 = false →
      ∃ tr1 tr2 l σ' σ'',
        serve E (api.handleSubscribe r) (entry rw) σ0
        = (tr1, Blocked (waiting (session_ctx r σ0) room (session_conn σ0)) l σ')
        ∧ serve E (waiting (session_ctx r σ0) room (session_conn σ0)) l
            (fire cause σ1)
          = (tr2, Returned () (clear_deferred l) σ'')
        ∧ count (is_delete room (session_conn σ0)) (tr1 ++ tr2) = 1%nat
        ∧ count (is_close (session_conn σ0)) (tr1 ++ tr2) = 1%nat
        ∧ (session_conn σ0 ∉ Snapshot σ'' room)
        ∧ (session_conn σ0 ∉ open σ'').
Proof.
  intros E r rw σ0 room run1 run2 tr c.
  apply (session_removed_and_closed_once E r rw σ0 tr (snd run2) c).
  - exact session_with_interference.
  - vm_compute. constructor.
Defined.

(** How that session ends: the second client is still registered and its
    connection open; the first is gone from the set and closed. *)
Example session_with_interference_end :
  match snd (serve example.E
               (waiting (session_ctx (example.subscribe 7 example.room_text) NewHandler)
                  example.room_text 1%positive)
               {| w := NewResponseWriter; deferred := [1%positive] |}
               example.first_gone)
  with
  | Returned _ _ σ' =>
      Snapshot σ' example.room_text = {[ 2%positive ]}
      ∧ open σ' = {[ 2%positive ]}
  | _ => False
  end.
Proof. vm_compute. split; reflexivity. Qed.

(** ** More of [handleCreateRoom] *)

(** X1: a body that does not decode is answered with status 400 and
    "Invalid JSON"; the store is not asked to insert anything and the shared
    state is as it was at every step (lines 149-153). *)
Theorem handleCreateRoom_invalid_json E r rw σ err :
  rw_sent rw = None →
  env_Decode E (Body r) = Err err →
  ∃ tr l',
    serve E (api.handleCreateRoom r) (entry rw) σ = (tr, Returned () l' σ)
    ∧ status (w l') = Some StatusBadRequest
    ∧ rw_body (w l') = rw_body rw +:+ "Invalid JSON" +:+ newline
    ∧ count is_InsertRoom tr = 0%nat
    ∧ count is_Write tr = 0%nat
    ∧ Forall (λ s, before s = σ ∧ after s = σ) tr.
Proof.
  intros Hrw Hdecode. unfold serve, api.handleCreateRoom. cbn.
  rewrite Hdecode. cbn.
  eexists _, _. split; [reflexivity|]. cbn.
  split; [by apply status_Error|].
  split; [apply body_Error|].
  repeat split; repeat constructor.
Qed.

(** X2: when the store fails to insert the room, the failure is logged once
    with [slog.Error] and the client is answered with status 500 and
    "Something went wrong"; no JSON is written and the shared state is as it
    was (lines 155-163). *)
Theorem handleCreateRoom_store_error E r rw σ theme err :
  rw_sent rw = None →
  env_Decode E (Body r) = Ok theme →
  env_InsertRoom E theme = Err err →
  ∃ tr l',
    serve E (api.handleCreateRoom r) (entry rw) σ = (tr, Returned () l' σ)
    ∧ status (w l') = Some StatusInternalServerError
    ∧ rw_body (w l') = rw_body rw +:+ "Something went wrong" +:+ newline
    ∧ count is_slog_Error tr = 1%nat
    ∧ count is_InsertRoom tr = 1%nat
    ∧ count is_Write tr = 0%nat
    ∧ Forall (λ s, before s = σ ∧ after s = σ) tr.
Proof.
  intros Hrw Hdecode Hinsert. unfold serve, api.handleCreateRoom. cbn.
  rewrite Hdecode. cbn. rewrite Hinsert. cbn.
  eexists _, _. split; [reflexivity|]. cbn.
  split; [by apply status_Error|].
  split; [apply body_Error|].
  repeat split; repeat constructor.
Qed.

(** X3: a room creation does not wait and does not touch what the handlers
    share.  Whatever the other goroutines do and whatever the store and the
    decoder answer, every step of it leaves the shared state as it found it,
    it never calls [Lock], it makes at most four calls, and it neither
    panics nor crashes; run with nobody in between it returns from any
    state, the mutex locked or not, with that state unchanged
    (lines 143-174). *)
Theorem handleCreateRoom_never_blocks E r rw σ0 tr e :
  serves anything E (api.handleCreateRoom r) (entry rw) σ0 tr e →
  Forall (λ s, after s = before s) tr
  ∧ count is_Lock tr = 0%nat
  ∧ (List.length tr ≤ 4)%nat
  ∧ match e with Panicked _ _ _ | Crashed _ => False | _ => True end
  ∧ ∃ tr0 l',
      serve E (api.handleCreateRoom r) (entry rw) σ0 = (tr0, Returned () l' σ0).
Proof.
  intros H. split; [|split; [|split; [|split]]].
  - inv_serves H; repeat constructor.
  - inv_serves H; reflexivity.
  - inv_serves H; cbn; lia.
  - inv_serves H; done.
  - clear H. unfold serve, api.handleCreateRoom. cbn.
    destruct (env_Decode E (Body r)) as [theme|err]; cbn; [|by eexists _, _].
    destruct (env_InsertRoom E theme) as [roomId|err]; cbn; [|by eexists _, _].
    destruct (json_Marshal _) as [data merr]. cbn. by eexists _, _.
Qed.

(** ** More of [handleSubscribe] *)

(** X4: a room lookup that fails for another reason than a missing row is
    answered with status 500 and "Something went wrong"; the handler returns
    without having called the upgrader and leaves the shared state as it was
    at every step (lines 94-106). *)
Theorem handleSubscribe_store_error E r rw σ roomId err :
  rw_sent rw = None →
  env_Parse E (chi_URLParam r "room_id") = Ok roomId →
  env_GetRoom E roomId = Err err →
  errors_Is_ErrNoRows err = false →
  ∃ tr l',
    serve E (api.handleSubscribe r) (entry rw) σ = (tr, Returned () l' σ)
    ∧ status (w l') = Some StatusInternalServerError
    ∧ rw_body (w l') = rw_body rw +:+ "Something went wrong" +:+ newline
    ∧ count is_Upgrade tr = 0%nat
    ∧ Forall (λ s, before s = σ ∧ after s = σ) tr.
Proof.
  intros Hrw Hparse Hget Hrows. unfold serve, api.handleSubscribe. cbn.
  rewrite Hparse. cbn. rewrite Hget. cbn. rewrite Hrows. cbn.
  eexists _, _. split; [reflexivity|]. cbn.
  split; [by apply status_Error|].
  split; [apply body_Error|].
  repeat split; repeat constructor.
Qed.


(** X6: how the subscribe handler uses the lock, whatever the other
    goroutines do: it never calls [Lock] while it holds [mu], it unlocks
    only what it locked, it holds [mu] neither while it waits on
    [ctx.Done()] nor while it asks the store or the upgrader, it locks at
    most twice, and when it returns, or waits for the token or for the lock,
    it does not hold [mu] (lines 94-140). *)
Theorem handleSubscribe_lock_usage E r rw σ0 tr e :
  serves anything E (api.handleSubscribe r) (entry rw) σ0 tr e →
  lock_used_well false tr
  ∧ (count is_Lock tr ≤ 2)%nat
  ∧ match e with
    | Returned _ _ _ => held_after tr false = false
                        ∧ count is_Lock tr = count is_Unlock tr
    | Blocked (Vis o _) _ _ =>
        match o with
        | ctx_Done _ => held_after tr false = false
        | mu_Lock => held_after tr false = false
        | _ => True
        end
    | _ => True
    end.
Proof.
  intros H. split; [|split].
  - inv_serves H; cbn; repeat split; done.
  - inv_serves H; cbn; lia.
  - inv_serves H; cbn; try done.
Qed.

(** X8: a subscription names no connection but its own and no room text but
    its own.  Whatever the other goroutines do, every call of the handler
    that names a connection (a deferred or an actual [Close], a write to or
    a delete from a room's set) names the one its upgrade returned, and every
    call that names a room text names the one of the request's URL; a run
    without a successful upgrade names no connection at all
    (lines 83-141). *)
Theorem handleSubscribe_own_connection_only E r rw σ0 tr e :
  serves anything E (api.handleSubscribe r) (entry rw) σ0 tr e →
  Forall (λ s, ∀ c, conn_of s = Some c → (1 ≤ count (is_upgraded c) tr)%nat) tr
  ∧ (∀ c c', (1 ≤ count (is_upgraded c) tr)%nat →
             (1 ≤ count (is_upgraded c') tr)%nat → c = c')
  ∧ Forall (λ s, ∀ room, room_of s = Some room → room = chi_URLParam r "room_id") tr.
Proof.
  intros H. split; [|split].
  - inv_serves H; repeat constructor; cbn; try done.
    all: intros c [= <-]; unfold count; cbn;
      rewrite bool_decide_eq_true_2 by done; cbn; lia.
  - intros c c' Hc Hc'. inv_serves H; unfold count in *; cbn in *; try lia.
    all: repeat case_bool_decide; cbn in *; try lia; congruence.
  - inv_serves H; repeat constructor; cbn; try done.
    all: by intros room [= <-].
Qed.

Lemma frame_insert room0 (m : gmap Conn CancelFunc)
    (subs : gmap string (gmap Conn CancelFunc)) :
  (∀ room, room ≠ room0 → <[room0 := m]> subs !! room = subs !! room)
  ∧ (∀ room, is_Some (subs !! room) → is_Some (<[room0 := m]> subs !! room)).
Proof.
  split; intros room H.
  - by rewrite lookup_insert_ne.
  - destruct (decide (room0 = room)) as [<-|Hne].
    + rewrite lookup_insert_eq. eauto.
    + by rewrite lookup_insert_ne.
Qed.

Lemma frame_alter room0 (f : gmap Conn CancelFunc → gmap Conn CancelFunc)
    (subs : gmap string (gmap Conn CancelFunc)) :
  (∀ room, room ≠ room0 → alter f room0 subs !! room = subs !! room)
  ∧ (∀ room, is_Some (subs !! room) → is_Some (alter f room0 subs !! room)).
Proof.
  split; intros room H.
  - by rewrite lookup_alter_ne.
  - destruct (decide (room0 = room)) as [<-|Hne].
    + rewrite lookup_alter_eq. destruct H as [m ->]. simpl. eauto.
    + by rewrite lookup_alter_ne.
Qed.

(** X9: a subscription changes no entry of the registry but the one of its
    own room text, and it removes no entry.  Whatever the other goroutines
    do, every step of the handler leaves the entry of every other room text
    as it found it, and a room text that had an entry before a step has one
    after it (lines 120-140). *)
Theorem handleSubscribe_registry_frame E r rw σ0 tr e :
  serves anything E (api.handleSubscribe r) (entry rw) σ0 tr e →
  Forall (λ s,
    (∀ room, room ≠ chi_URLParam r "room_id" →
       subscribes (after s) !! room = subscribes (before s) !! room)
    ∧ (∀ room, is_Some (subscribes (before s) !! room) →
         is_Some (subscribes (after s) !! room))) tr.
Proof.
  intros H. inv_serves H; repeat constructor; simpl.
  all: first [ done | apply frame_insert | apply frame_alter ].
Qed.

(** X12: the order of a session's calls.  In every run of the subscribe
    handler among goroutines that keep the discipline of the lock, a room's
    set is written only after the connection's [Close] has been deferred,
    and a connection is closed only after it has been deleted from the set:
    no closed connection of the handler is left registered
    (lines 118-140). *)
Theorem handleSubscribe_delete_before_close E r rw σ0 tr e :
  serves respects_lock E (api.handleSubscribe r) (entry rw) σ0 tr e →
  in_order false false tr
  ∧ (count is_registry_set tr ≤ 1)%nat
  ∧ (count is_any_Close tr ≤ count is_registry_delete tr)%nat.
Proof.
  intros H. split; [|split].
  - inv_serves H; cbn; repeat split; try done.
    all: use_rely; norm_subs; no_failure.
  - inv_serves H; cbn; lia.
  - inv_serves H; cbn; try lia.
    all: use_rely; norm_subs; no_failure.
Qed.

(** ** Sessions that come and go *)

(** X10: a session that comes and goes leaves the listener sets as they
    were, and an entry behind.  For a subscription to an existing room that
    registers, waits, and is torn down when its token fires (with nobody
    else running, its connection being a new one): afterwards every room's
    listener set and the set of open connections are what they were before
    the subscription, the lock is free, every other room's entry is
    untouched, and the room text of the request has an entry, empty if it
    had none before (lines 83-141). *)
Theorem session_round_trip E r rw σ roomId found cause :
  let room := chi_URLParam r "room_id" in
  let c := session_conn σ in
  env_Parse E room = Ok roomId →
  env_GetRoom E roomId = Ok found →
  env_Upgrade E r = None →
  mu σ = false →
  ctx_done σ (session_ctx r σ) = false →
  (cause = ClientDisconnect (req_id r) ∨ cause = Eviction (session_cancel σ)) →
  c ∉ Snapshot σ room →
  c ∉ open σ →
  ∃ tr1 tr2 l σ' σ'',
    serve E (api.handleSubscribe r) (entry rw) σ
    = (tr1, Blocked (waiting (session_ctx r σ) room c) l σ')
    ∧ serve E (waiting (session_ctx r σ) room c) l (fire cause σ')
      = (tr2, Returned () (clear_deferred l) σ'')
    ∧ (∀ room', Snapshot σ'' room' = Snapshot σ room')
    ∧ open σ'' = open σ
    ∧ mu σ'' = false
    ∧ (∀ room', room' ≠ room →
         subscribes σ'' !! room' = subscribes σ !! room')
    ∧ subscribes σ'' !! room = Some (default ∅ (subscribes σ !! room)).
Proof.
  intros room c Hparse Hget Hupg Hmu Hdone Hcause Hfresh Hclosed.
  destruct (handleSubscribe_setup E r rw σ roomId found Hparse Hget Hupg Hmu Hdone)
    as (tr1 & Hs1 & _).
  destruct (handleSubscribe_teardown E (session_ctx r σ) room c rw
              (fire cause (after_register room c (alloc_conn σ))))
    as (tr2 & Hs2 & _).
  { destruct Hcause as [-> | ->].
    - apply ctx_done_fire_disconnect.
    - apply ctx_done_fire_eviction. }
  { by rewrite mu_fire. }
  eexists tr1, tr2, _, _, _. split; [exact Hs1|]. split; [exact Hs2|].
  split; [|split; [|split; [|split]]].
  - intros room'.
    change (Snapshot (set_open ?f ?x) ?y) with (Snapshot x y).
    rewrite Snapshot_after_unregister, !Snapshot_fire, !Snapshot_after_register.
    change (Snapshot (alloc_conn ?x) ?y) with (Snapshot x y).
    destruct (decide (room' = room)) as [->|Hne]; [|done].
    rewrite decide_True by done.
    apply set_eq. intros x.
    rewrite elem_of_difference, elem_of_union, !elem_of_singleton.
    split; [by intros [[->|?] ?]|]. intros Hx. split; [by right|].
    intros ->. done.
  - destruct cause as [|[]]; simpl; apply set_eq; intros x;
      rewrite elem_of_difference, elem_of_union, !elem_of_singleton;
      (split; [by intros [[->|?] ?]|]; intros Hx; split; [by right|];
       intros ->; done).
  - destruct cause as [|[]]; simpl; done.
  - intros room' Hne. destruct cause as [|[]]; simpl;
      unfold Unregister; rewrite lookup_alter_ne by done;
      by rewrite Register_lookup_ne.
  - assert (default ∅ (subscribes σ !! room) !! c = None) as Hc.
    { by apply not_elem_of_dom. }
    destruct cause as [|[]]; simpl;
      unfold Unregister; rewrite lookup_alter_eq, Register_lookup; simpl;
      by rewrite delete_insert_eq, delete_id.
Qed.

Lemma Register_Unregister_comm room1 c1 cancel room2 c2
    (subs : gmap string (gmap Conn CancelFunc)) :
  c1 ≠ c2 →
  Unregister room2 c2 (Register room1 c1 cancel subs)
  = Register room1 c1 cancel (Unregister room2 c2 subs).
Proof.
  intros Hne. unfold Unregister, Register. apply map_eq. intros room.
  destruct (decide (room1 = room2)) as [<-|Hrooms].
  - destruct (decide (room = room1)) as [->|Hr].
    + rewrite lookup_alter_eq, !lookup_insert_eq, lookup_alter_eq. simpl.
      f_equal. destruct (subs !! room1) as [m|]; simpl.
      * by rewrite delete_insert_ne.
      * rewrite delete_insert_ne by done. by rewrite delete_empty.
    + rewrite lookup_alter_ne, !lookup_insert_ne, lookup_alter_ne by done. done.
  - destruct (decide (room = room1)) as [->|Hr1].
    + rewrite lookup_alter_ne, !lookup_insert_eq, lookup_alter_ne by done. done.
    + rewrite lookup_insert_ne by done.
      destruct (decide (room = room2)) as [->|Hr2].
      * rewrite !lookup_alter_eq, lookup_insert_ne by done. done.
      * rewrite !lookup_alter_ne, lookup_insert_ne by done. done.
Qed.

(** X11: a join and a leave of different connections commute.  With the
    lock free and nobody else running, registering one connection and then
    unregistering another leaves the same shared state as doing the two in
    the other order, whatever the rooms; and both orders return
    (lines 120-140). *)
Theorem join_leave_commute E r room1 c1 room2 c2 l σ :
  mu σ = false →
  c1 ≠ c2 →
  final_world (snd (exec E (api.register r room1 c1;; api.unregister room2 c2) l σ))
  = final_world (snd (exec E (api.unregister room2 c2;; api.register r room1 c1) l σ))
  ∧ final_world (snd (exec E (api.register r room1 c1;; api.unregister room2 c2) l σ))
    = Some (after_unregister room2 c2 (after_register room1 c1 σ)).
Proof.
  intros Hmu Hne.
  destruct (register_exec E r room1 c1 l σ Hmu) as (tr1 & Hreg1 & _).
  destruct (register_exec E r room1 c1 l (after_unregister room2 c2 σ))
    as (tr2 & Hreg2 & _); [done|].
  change (api.register r room1 c1;; api.unregister room2 c2)
    with (prog_bind (λ _, api.unregister room2 c2) (api.register r room1 c1)).
  change (api.unregister room2 c2;; api.register r room1 c1)
    with (prog_bind (λ _, api.register r room1 c1) (api.unregister room2 c2)).
  unfold after_unregister in Hreg2.
  rewrite !exec_bind, Hreg1, !unregister_exec by done. cbn.
  rewrite Hreg2. cbn. split; [|done]. f_equal.
  unfold after_unregister, after_register, set_subscribes. simpl.
  by rewrite Register_Unregister_comm.
Qed.

(** X13: the listener sets do not depend on the order in which two
    connections register.  With the lock free and nobody else running, two
    registrations, to the same room or to different ones, return in either
    order, and every room has the same listener set after the one order as
    after the other (lines 120-132). *)
Theorem joins_commute E r1 r2 room1 c1 room2 c2 l σ :
  mu σ = false →
  ∃ σa σb,
    final_world (snd (exec E (api.register r1 room1 c1;; api.register r2 room2 c2) l σ))
    = Some σa
    ∧ final_world (snd (exec E (api.register r2 room2 c2;; api.register r1 room1 c1) l σ))
      = Some σb
    ∧ (∀ room, Snapshot σa room = Snapshot σb room)
    ∧ c1 ∈ Snapshot σa room1 ∧ c2 ∈ Snapshot σa room2.
Proof.
  intros Hmu.
  destruct (register_exec E r1 room1 c1 l σ Hmu) as (tr1 & Hreg1 & _).
  destruct (register_exec E r2 room2 c2 l σ Hmu) as (tr2 & Hreg2 & _).
  destruct (register_exec E r2 room2 c2 l (after_register room1 c1 σ))
    as (tr3 & Hreg3 & _); [exact Hmu|].
  destruct (register_exec E r1 room1 c1 l (after_register room2 c2 σ))
    as (tr4 & Hreg4 & _); [exact Hmu|].
  exists (after_register room2 c2 (after_register room1 c1 σ)),
         (after_register room1 c1 (after_register room2 c2 σ)).
  change (api.register r1 room1 c1;; api.register r2 room2 c2)
    with (prog_bind (λ _, api.register r2 room2 c2) (api.register r1 room1 c1)).
  change (api.register r2 room2 c2;; api.register r1 room1 c1)
    with (prog_bind (λ _, api.register r1 room1 c1) (api.register r2 room2 c2)).
  rewrite !exec_bind, Hreg1, Hreg2. cbn. rewrite Hreg3, Hreg4. cbn.
  split; [done|]. split; [done|]. split; [|split].
  - intros room.
    repeat (rewrite !Snapshot_after_register; repeat case_decide; subst;
            try done).
    all: apply set_eq; intros x; rewrite ?elem_of_union; tauto.
  - repeat (rewrite !Snapshot_after_register; repeat case_decide; subst;
            try done).
    all: rewrite ?elem_of_union, ?elem_of_singleton; tauto.
  - repeat (rewrite !Snapshot_after_register; repeat case_decide; subst;
            try done).
    all: rewrite ?elem_of_union, ?elem_of_singleton; tauto.
Qed.

(** ** The examples of these properties *)

Lemma respects_lock_anything h σ σ' : respects_lock h σ σ' → anything h σ σ'.
Proof. done. Qed.

Lemma session_run :
  serves respects_lock example.E (api.handleSubscribe session.r)
    (entry NewResponseWriter) NewHandler session.tr session.e.
Proof. exact session_with_interference. Qed.

Lemma session_run_anything :
  serves anything example.E (api.handleSubscribe session.r)
    (entry NewResponseWriter) NewHandler session.tr session.e.
Proof.
  apply serves_mono with (R := respects_lock); [apply respects_lock_anything|].
  exact session_run.
Qed.

Lemma handleCreateRoom_invalid_json_witness :
  ∃ tr l',
    serve failing.decode (api.handleCreateRoom (example.create_room 4))
      (entry NewResponseWriter) example.one_listener
    = (tr, Returned () l' example.one_listener)
    ∧ status (w l') = Some StatusBadRequest
    ∧ rw_body (w l') = rw_body NewResponseWriter +:+ "Invalid JSON" +:+ newline
    ∧ count is_InsertRoom tr = 0%nat
    ∧ count is_Write tr = 0%nat
    ∧ Forall (λ s, before s = example.one_listener
                   ∧ after s = example.one_listener) tr.
Proof.
  apply (handleCreateRoom_invalid_json failing.decode (example.create_room 4)
           NewResponseWriter example.one_listener
           (errors_New "unexpected end of JSON input")); reflexivity.
Defined.

Lemma handleCreateRoom_store_error_witness :
  ∃ tr l',
    serve failing.store (api.handleCreateRoom (example.create_room 4))
      (entry NewResponseWriter) example.one_listener
    = (tr, Returned () l' example.one_listener)
    ∧ status (w l') = Some StatusInternalServerError
    ∧ rw_body (w l')
      = rw_body NewResponseWriter +:+ "Something went wrong" +:+ newline
    ∧ count is_slog_Error tr = 1%nat
    ∧ count is_InsertRoom tr = 1%nat
    ∧ count is_Write tr = 0%nat
    ∧ Forall (λ s, before s = example.one_listener
                   ∧ after s = example.one_listener) tr.
Proof.
  apply (handleCreateRoom_store_error failing.store (example.create_room 4)
           NewResponseWriter example.one_listener "ask-me-anything"
           (errors_New "connection refused")); reflexivity.
Defined.

Lemma handleCreateRoom_never_blocks_witness :
  let E := example.E in
  let r := example.create_room 4 in
  let rw := NewResponseWriter in
  let σ0 := set_mu true example.one_listener in
  let run := serve E (api.handleCreateRoom r) (entry rw) σ0 in
  Forall (λ s, after s = before s) (fst run)
  ∧ count is_Lock (fst run) = 0%nat
  ∧ (List.length (fst run) ≤ 4)%nat
  ∧ match snd run with Panicked _ _ _ | Crashed _ => False | _ => True end
  ∧ ∃ tr0 l',
      serve E (api.handleCreateRoom r) (entry rw) σ0 = (tr0, Returned () l' σ0).
Proof.
  intros E r rw σ0 run.
  apply (handleCreateRoom_never_blocks E r rw σ0 (fst run) (snd run)).
  apply serves_mono with (R := alone); [apply alone_anything|].
  exact (serve_serves E (api.handleCreateRoom r) (entry rw) σ0).
Defined.

Lemma handleSubscribe_store_error_witness :
  ∃ tr l',
    serve failing.store
      (api.handleSubscribe (example.subscribe 1 example.room_text))
      (entry NewResponseWriter) example.one_listener
    = (tr, Returned () l' example.one_listener)
    ∧ status (w l') = Some StatusInternalServerError
    ∧ rw_body (w l')
      = rw_body NewResponseWriter +:+ "Something went wrong" +:+ newline
    ∧ count is_Upgrade tr = 0%nat
    ∧ Forall (λ s, before s = example.one_listener
                   ∧ after s = example.one_listener) tr.
Proof.
  apply (handleSubscribe_store_error failing.store
           (example.subscribe 1 example.room_text) NewResponseWriter
           example.one_listener example.room_id
           (errors_New "connection refused")); reflexivity.
Defined.


Lemma handleSubscribe_lock_usage_witness :
  lock_used_well false session.tr
  ∧ (count is_Lock session.tr ≤ 2)%nat
  ∧ match session.e with
    | Returned _ _ _ => held_after session.tr false = false
                        ∧ count is_Lock session.tr = count is_Unlock session.tr
    | Blocked (Vis o _) _ _ =>
        match o with
        | ctx_Done _ => held_after session.tr false = false
        | mu_Lock => held_after session.tr false = false
        | _ => True
        end
    | _ => True
    end.
Proof.
  apply (handleSubscribe_lock_usage example.E session.r NewResponseWriter
           NewHandler session.tr session.e).
  exact session_run_anything.
Defined.

Lemma handleSubscribe_keeps_discipline_witness :
  keeps_discipline false session.tr.
Proof.
  apply (handleSubscribe_keeps_discipline example.E session.r NewResponseWriter
           NewHandler session.tr session.e).
  exact session_run_anything.
Defined.

Lemma handleSubscribe_own_connection_only_witness :
  Forall (λ s, ∀ c, conn_of s = Some c →
                    (1 ≤ count (is_upgraded c) session.tr)%nat) session.tr
  ∧ (∀ c c', (1 ≤ count (is_upgraded c) session.tr)%nat →
             (1 ≤ count (is_upgraded c') session.tr)%nat → c = c')
  ∧ Forall (λ s, ∀ room, room_of s = Some room →
                         room = chi_URLParam session.r "room_id") session.tr.
Proof.
  apply (handleSubscribe_own_connection_only example.E session.r
           NewResponseWriter NewHandler session.tr session.e).
  exact session_run_anything.
Defined.

Lemma handleSubscribe_registry_frame_witness :
  Forall (λ s,
    (∀ room, room ≠ chi_URLParam session.r "room_id" →
       subscribes (after s) !! room = subscribes (before s) !! room)
    ∧ (∀ room, is_Some (subscribes (before s) !! room) →
         is_Some (subscribes (after s) !! room))) session.tr.
Proof.
  apply (handleSubscribe_registry_frame example.E session.r NewResponseWriter
           NewHandler session.tr session.e).
  exact session_run_anything.
Defined.

Lemma handleSubscribe_delete_before_close_witness :
  in_order false false session.tr
  ∧ (count is_registry_set session.tr ≤ 1)%nat
  ∧ (count is_any_Close session.tr ≤ count is_registry_delete session.tr)%nat.
Proof.
  apply (handleSubscribe_delete_before_close example.E session.r
           NewResponseWriter NewHandler session.tr session.e).
  exact session_run.
Defined.

Lemma session_round_trip_witness :
  let E := example.E in
  let r := example.subscribe 9 example.room_text_upper in
  let rw := NewResponseWriter in
  let σ := example.one_listener in
  let cause := Eviction (session_cancel σ) in
  let room := chi_URLParam r "room_id" in
  let c := session_conn σ in
  ∃ tr1 tr2 l σ' σ'',
    serve E (api.handleSubscribe r) (entry rw) σ
    = (tr1, Blocked (waiting (session_ctx r σ) room c) l σ')
    ∧ serve E (waiting (session_ctx r σ) room c) l (fire cause σ')
      = (tr2, Returned () (clear_deferred l) σ'')
    ∧ (∀ room', Snapshot σ'' room' = Snapshot σ room')
    ∧ open σ'' = open σ
    ∧ mu σ'' = false
    ∧ (∀ room', room' ≠ room →
         subscribes σ'' !! room' = subscribes σ !! room')
    ∧ subscribes σ'' !! room = Some (default ∅ (subscribes σ !! room)).
Proof.
  intros E r rw σ cause room c.
  apply (session_round_trip E r rw σ example.room_id
           {| Room_ID := example.room_id; Room_Theme := "ask-me-anything" |}
           cause).
  - vm_compute. reflexivity.
  - vm_compute. reflexivity.
  - reflexivity.
  - reflexivity.
  - vm_compute. reflexivity.
  - right. reflexivity.
  - vm_compute. intros H. discriminate H.
  - unfold c, σ, session_conn, example.one_listener. simpl.
    rewrite elem_of_singleton. discriminate.
Defined.

Lemma join_leave_commute_witness :
  let E := example.E in
  let r := example.subscribe 9 example.room_text in
  let l := entry NewResponseWriter in
  let σ := example.one_listener in
  final_world (snd (exec E (api.register r example.room_text 2%positive;;
                            api.unregister example.room_text 1%positive) l σ))
  = final_world (snd (exec E (api.unregister example.room_text 1%positive;;
                              api.register r example.room_text 2%positive) l σ))
  ∧ final_world (snd (exec E (api.register r example.room_text 2%positive;;
                              api.unregister example.room_text 1%positive) l σ))
    = Some (after_unregister example.room_text 1%positive
              (after_register example.room_text 2%positive σ)).
Proof.
  intros E r l σ.
  apply (join_leave_commute E r example.room_text 2%positive
           example.room_text 1%positive l σ).
  - reflexivity.
  - discriminate.
Defined.

Lemma joins_commute_witness :
  let E := example.E in
  let r1 := example.subscribe 8 example.room_text in
  let r2 := example.subscribe 9 example.room_text_upper in
  let l := entry NewResponseWriter in
  let σ := example.one_listener in
  ∃ σa σb,
    final_world (snd (exec E (api.register r1 example.room_text 2%positive;;
                              api.register r2 example.room_text_upper 3%positive) l σ))
    = Some σa
    ∧ final_world (snd (exec E (api.register r2 example.room_text_upper 3%positive;;
                                api.register r1 example.room_text 2%positive) l σ))
      = Some σb
    ∧ (∀ room, Snapshot σa room = Snapshot σb room)
    ∧ 2%positive ∈ Snapshot σa example.room_text
    ∧ 3%positive ∈ Snapshot σa example.room_text_upper.
Proof.
  intros E r1 r2 l σ.
  apply (joins_commute E r1 r2 example.room_text 2%positive
           example.room_text_upper 3%positive l σ).
  reflexivity.
Defined.
